(** * Atmosphere geometry of particle_simulation.construction

    A shallow embedding of the geometry part of
    [src/particle_simulation/construction.py]: the layer bounds of the flat
    and curved worlds, the placement of the sensitive detectors, the
    resampling of the density/temperature profile, the per-layer magnetic
    field and the [UniformMagneticField] object.

    Floating point numbers are modelled by exact rationals [Q]; Geant4 units
    are the CLHEP constants ([mm = 1], [km = 10^6], [tesla = 10^-3]).
    Python exceptions (IndexError, numpy's ValueError) are [None]. *)

From Stdlib Require Import Strings.String.
From Stdlib Require Import ZArith QArith Qfield Qminmax Lqa List Lia Sorting.Sorted.
Import ListNotations.

Open Scope Q_scope.

(** ** Units and helpers *)

Definition mm : Q := 1.
Definition km : Q := 1000000.
Definition tesla : Q := 1 # 1000.
(** the literal [1e-9] used to convert nanotesla to tesla *)
Definition nT_to_T : Q := 1 # 1000000000.

(** a Python [int] used in float arithmetic *)
Definition Qnat (n : nat) : Q := inject_Z (Z.of_nat n).

(** the float comparison [x < y] *)
Definition Qltb (x y : Q) : bool := negb (Qle_bool y x).

(** [np.array([f(a) for a in l])] where [f] may raise *)
Fixpoint map_option {A B : Type} (f : A -> option B) (l : list A)
  : option (list B) :=
  match l with
  | [] => Some []
  | a :: r =>
      match f a with
      | Some b =>
          match map_option f r with
          | Some bs => Some (b :: bs)
          | None => None
          end
      | None => None
      end
  end.

(** ** numpy *)

(** [np.linspace(start, stop, num)] (endpoint included): the samples are
    [arange(0, num) * step + start] with [step = (stop - start) / (num - 1)]
    and the last one overwritten by [stop]; [num = 1] gives [[start]]. *)
Definition linspace (start stop : Q) (num : nat) : list Q :=
  match num with
  | O => []
  | S O => [start]
  | S (S _ as div) =>
      let step := (stop - start) / Qnat div in
      map (fun i => Qnat i * step + start) (seq 0 div) ++ [stop]
  end.

(** The search of [np.interp] for a query [x] with [xp[0] <= x <= xp[-1]]:
    the interval [xp[j] <= x < xp[j+1]] is found and the value is
    [slope * (x - xp[j]) + fp[j]]; [x == xp[j]] returns [fp[j]], and the
    last point returns [fp[-1]]. *)
Fixpoint interp_search (x : Q) (pts : list (Q * Q)) : Q :=
  match pts with
  | [] => 0
  | [(_, y0)] => y0
  | (x0, y0) :: (((x1, y1) :: _) as rest) =>
      if Qltb x x1 then
        if Qeq_bool x0 x then y0
        else (y1 - y0) / (x1 - x0) * (x - x0) + y0
      else interp_search x rest
  end.

(** One query of [np.interp] with the default [left = fp[0]] and
    [right = fp[-1]]: no extrapolation past the table edges. *)
Definition interp_at (x : Q) (pts : list (Q * Q)) (p0 pl : Q * Q) : Q :=
  if Qltb (fst pl) x then snd pl
  else if Qltb x (fst p0) then snd p0
  else interp_search x pts.

(** [np.interp(xs, xp, fp)]: raises when [xp] and [fp] differ in length or
    are empty. [np.interp] expects an increasing [xp] and does not check it:
    on a strictly increasing [xp] (and on any [xp] of at most 4 points) the
    guess-seeded bisection of numpy finds the same interval as the scan of
    [interp_search]; on other tables numpy may pick another interval, so the
    theorems below apply [np_interp] to strictly increasing tables only. *)
Definition np_interp (xs xp fp : list Q) : option (list Q) :=
  if negb (Nat.eqb (length xp) (length fp)) then None
  else
    match combine xp fp with
    | [] => None
    | (p0 :: _) as pts =>
        Some (map (fun x => interp_at x pts p0 (last pts p0)) xs)
    end.

(** ** Density and temperature profile *)

(** One day of the json density file: [altitude] in km, [T] in kelvin and
    [density] in kg/m^3. *)
Record DayProfile := {
  altitude : list Q;
  T : list Q;
  density : list Q
}.

(** [DetectorConstruction.parse_density_temp_from_config], from the selected
    day on: returns [(density, temp, inter_height)]. *)
Definition parse_density_temp_from_config (data_day : DayProfile)
    (atmosphere_height : Q) (density_points : nat)
  : option (list Q * list Q * list Q) :=
  let height := map (fun a => a * km) (altitude data_day) in
  let inter_height := linspace 0 atmosphere_height density_points in
  match np_interp inter_height height (density data_day) with
  | None => None
  | Some density' =>
      match np_interp inter_height height (T data_day) with
      | None => None
      | Some temp => Some (density', temp, inter_height)
      end
  end.

(** ** Layer bounds *)

(** [correction_factor] and [altitude_limits] after the layers are built. *)
Record World := {
  correction_factor : Q;
  altitude_limits : list (Q * Q)
}.

(** The layer loop of [construct_flat_world] (lines 293-319); the
    [atmosphere_height] is already in Geant4 length units. *)
Definition flat_layer_limit (atmosphere_height : Q) (density_points : nat)
    (correction : Q) (i : nat) : Q * Q :=
  let box_height := atmosphere_height / Qnat density_points / 2 in
  (Qnat i * atmosphere_height / Qnat density_points + correction,
   Qnat i * atmosphere_height / Qnat density_points + 2 * box_height
     + correction).

Definition construct_flat_layers (atmosphere_height : Q) (density_points : nat)
  : World :=
  let correction := - atmosphere_height / 2 in
  {| correction_factor := correction;
     altitude_limits :=
       map (flat_layer_limit atmosphere_height density_points correction)
           (seq 0 density_points) |}.

(** The layer loop of [construct_spherical_world] (lines 428-480);
    [earth_radius] is the configuration value in km. *)
Definition spherical_layer_limit (atmosphere_height : Q) (density_points : nat)
    (correction : Q) (i : nat) : Q * Q :=
  (correction + Qnat i * atmosphere_height / Qnat density_points,
   correction + Qnat (S i) * atmosphere_height / Qnat density_points).

Definition construct_spherical_layers (earth_radius : Q)
    (atmosphere_height : Q) (density_points : nat) : World :=
  let earth_rad := earth_radius * km in
  {| correction_factor := earth_rad;
     altitude_limits :=
       map (spherical_layer_limit atmosphere_height density_points earth_rad)
           (seq 0 density_points) |}.

(** ** Sensitive detectors *)

(** The lookup loop: the first layer [j] with
    [limits[j][0] <= alt <= limits[j][1]]; [detectors_layer] starts as
    [np.zeros], so no match leaves 0. *)
Fixpoint find_layer_from (j : nat) (alt : Q) (limits : list (Q * Q)) : nat :=
  match limits with
  | [] => 0%nat
  | (lo, hi) :: rest =>
      if Qle_bool lo alt && Qle_bool alt hi then j
      else find_layer_from (S j) alt rest
  end.

Definition find_layer (alt : Q) (limits : list (Q * Q)) : nat :=
  find_layer_from 0 alt limits.

(** [detector_size = min(10 * mm, atmosphere_height / density_points / 10)] *)
Definition detector_size (atmosphere_height : Q) (density_points : nat) : Q :=
  Qmin (10 * mm) (atmosphere_height / Qnat density_points / 10).

(** A box detector: its layer, the z of its centre relative to the layer
    centre, and its half height [detector_size / 2]. *)
Record FlatDetector := {
  fd_layer : nat;
  fd_position : Q;
  fd_half_z : Q
}.

(** A shell detector: its layer and its inner and outer radius. *)
Record SphDetector := {
  sd_layer : nat;
  sd_rmin : Q;
  sd_rmax : Q
}.

Section Placement.

(** the per-layer materials ([self.material]), only indexed here *)
Context {Material : Type}.

(** One iteration of the detector loop of [construct_flat_world] (lines
    369-415); [alt] is [detectors_alt[i]] in local coordinates. *)
Definition place_flat_detector (atmosphere_height : Q) (density_points : nat)
    (material : list Material) (limits : list (Q * Q)) (alt : Q)
  : option FlatDetector :=
  let j := find_layer alt limits in
  let size := detector_size atmosphere_height density_points in
  let box_height := atmosphere_height / Qnat density_points / 2 in
  match nth_error material j with
  | None => None
  | Some _ =>
      match nth_error limits j with
      | None => None
      | Some (lo, _) =>
          let upper_lim := box_height in
          let layer_center := lo + box_height in
          let lower_lim := - box_height in
          let detector_position := alt - layer_center in
          let detector_position :=
            if Qltb upper_lim (detector_position + size / 2)
            then upper_lim - size / 2
            else if Qltb (detector_position - size / 2) lower_lim
            then detector_position + size / 2
            else detector_position in
          Some {| fd_layer := j; fd_position := detector_position;
                  fd_half_z := size / 2 |}
      end
  end.

(** [construct_flat_world]: the layers, then, when the sensitive detectors
    are enabled, one detector per configured altitude (in km). *)
Definition construct_flat_world (atmosphere_height : Q) (density_points : nat)
    (material : list Material) (sd_enabled : bool) (sd_altitude : list Q)
  : option (World * list FlatDetector) :=
  let w := construct_flat_layers atmosphere_height density_points in
  if sd_enabled then
    let detectors_alt :=
      map (fun a => a * km + correction_factor w) sd_altitude in
    match map_option
            (place_flat_detector atmosphere_height density_points material
               (altitude_limits w)) detectors_alt with
    | Some ds => Some (w, ds)
    | None => None
    end
  else Some (w, []).

(** One iteration of the detector loop of [construct_spherical_world]
    (lines 523-565). *)
Definition place_spherical_detector (atmosphere_height : Q)
    (density_points : nat) (material : list Material) (limits : list (Q * Q))
    (alt : Q) : option SphDetector :=
  let j := find_layer alt limits in
  let size := detector_size atmosphere_height density_points in
  match nth_error limits j with
  | None => None
  | Some (_, upper_lim) =>
      let chosen_alt :=
        if Qle_bool (alt + size) upper_lim then alt else upper_lim - size in
      match nth_error material j with
      | None => None
      | Some _ =>
          Some {| sd_layer := j; sd_rmin := chosen_alt;
                  sd_rmax := chosen_alt + size |}
      end
  end.

Definition construct_spherical_world (earth_radius atmosphere_height : Q)
    (density_points : nat) (material : list Material) (sd_enabled : bool)
    (sd_altitude : list Q) : option (World * list SphDetector) :=
  let w := construct_spherical_layers earth_radius atmosphere_height
             density_points in
  if sd_enabled then
    let detectors_alt :=
      map (fun a => a * km + correction_factor w) sd_altitude in
    match map_option
            (place_spherical_detector atmosphere_height density_points material
               (altitude_limits w)) detectors_alt with
    | Some ds => Some (w, ds)
    | None => None
    end
  else Some (w, []).

End Placement.

(** ** Per-layer magnetic field *)

(** A row of the magnetic field csv: [x], [y], [z] in nT, [altitude] in km. *)
Record MagRow := {
  row_x : Q;
  row_y : Q;
  row_z : Q;
  row_altitude : Q
}.

(** The result of [GeoMag.calculate]: north, east and vertical (positive
    down) intensity in nT. *)
Record GeoMagResult := {
  gm_x : Q;
  gm_y : Q;
  gm_z : Q
}.

(** [mag_config.mag_source]: the csv rows, or the latitude, longitude and
    decimal year of the model query. *)
Inductive MagSource :=
| FromFile (rows : list MagRow)
| FromModel (latitude longitude decimal_year : Q).

Fixpoint zip3 (xs ys zs : list Q) : list (Q * Q * Q) :=
  match xs, ys, zs with
  | x :: xs', y :: ys', z :: zs' => (x, y, z) :: zip3 xs' ys' zs'
  | _, _, _ => []
  end.

Section MagneticField.

(** [pygeomag.GeoMag().calculate(glat, glon, alt, time)], an external
    library; [None] when it raises (a [ValueError] for a [time] outside the
    model's life span). *)
Variable calculate : Q -> Q -> Q -> Q -> option GeoMagResult.

(** [DetectorConstruction.get_magnetic_field]; [inter_heights] is
    [self.inter_heights], the third result of
    [parse_density_temp_from_config]. *)
Definition get_magnetic_field (source : MagSource) (inter_heights : list Q)
  : option (list (Q * Q * Q)) :=
  match source with
  | FromModel latitude longitude decimal_year =>
      map_option (fun h =>
                    match calculate latitude longitude (h / km)
                            decimal_year with
                    | Some result =>
                        Some (gm_x result * nT_to_T, gm_y result * nT_to_T,
                              - gm_z result * nT_to_T)
                    | None => None
                    end) inter_heights
  | FromFile rows =>
      let xs := map (fun r => row_x r * nT_to_T) rows in
      let ys := map (fun r => row_y r * nT_to_T) rows in
      let zs := map (fun r => row_z r * nT_to_T) rows in
      let alts := map (fun r => row_altitude r * km) rows in
      match np_interp inter_heights alts xs, np_interp inter_heights alts ys,
            np_interp inter_heights alts zs with
      | Some new_x, Some new_y, Some new_z => Some (zip3 new_x new_y new_z)
      | _, _, _ => None
      end
  end.

End MagneticField.

(** ** UniformMagneticField *)

Record UniformMagneticField := {
  fbx : Q;
  fby : Q;
  fbz : Q
}.

(** [UniformMagneticField.__init__] (the messenger is not modelled). *)
Definition UniformMagneticField_init (x y z : Q) : UniformMagneticField :=
  {| fbx := x * tesla; fby := y * tesla; fbz := z * tesla |}.

(** [lst[k] = v] on a Python list: IndexError past the end. *)
Fixpoint list_setitem (lst : list Q) (k : nat) (v : Q) : option (list Q) :=
  match lst, k with
  | [], _ => None
  | _ :: rest, O => Some (v :: rest)
  | a :: rest, S k' =>
      match list_setitem rest k' v with
      | Some rest' => Some (a :: rest')
      | None => None
      end
  end.

(** [UniformMagneticField.GetFieldValue]: writes the three components into
    the caller's [Bfield]; the result is [Bfield] after the call. *)
Definition GetFieldValue (self : UniformMagneticField) (Point : list Q)
    (Bfield : list Q) : option (list Q) :=
  match list_setitem Bfield 0 (fbx self) with
  | None => None
  | Some b0 =>
      match list_setitem b0 1 (fby self) with
      | None => None
      | Some b1 => list_setitem b1 2 (fbz self)
      end
  end.

(** [UniformMagneticField.SetFieldy], the handler of [/B5/field/value]. *)
Definition SetFieldy (self : UniformMagneticField) (val : Q)
  : UniformMagneticField :=
  {| fbx := fbx self; fby := val; fbz := fbz self |}.

(** ** Layer placement in the flat world *)

(** The z of the [G4PVPlacement] of layer [i] in [construct_flat_world]
    (lines 327-342); its [G4Box] has half height [box_height]. *)
Definition flat_layer_center (atmosphere_height : Q) (density_points : nat)
    (correction : Q) (i : nat) : Q :=
  let box_height := atmosphere_height / Qnat density_points / 2 in
  Qnat i * atmosphere_height / Qnat density_points + box_height + correction.

(** ** SensitiveDetectorConfig *)

Definition sensitive_detector_particles : list string :=
  ["e-"; "e+"; "gamma"; "mu-"; "mu+"; "nu_e"; "nu_mu"; "proton"; "neutron";
   "geantino"; "chargedgeantino"; "all"]%string.

(** [SensitiveDetectorConfig.validate_data]: [true] when no assertion
    fails. *)
Definition validate_sensitive_detectors (enabled : bool) (altitude : list Q)
    (particles : list string) : bool :=
  if enabled then
    Nat.ltb 0 (length altitude) && Nat.ltb 0 (length particles) &&
    forallb (fun alt => Qle_bool 0 alt) altitude &&
    forallb (fun particle =>
               existsb (String.eqb particle) sensitive_detector_particles)
      particles
  else true.

(** ** SensDetector.ProcessHits *)

(** The mm threshold below which a hit stops the track. *)
Definition ground_level : Q := 5000.

(** The state of a [SensDetector] that [ProcessHits] reads:
    [accepted_particles = set(config.sensitive_detectors.particles)] and the
    [correction_factor] given to [__init__]; [sens_index] is the [i] of its
    name ["sensitive_detector_" + str(i)]. *)
Record SensDetector := {
  sens_index : nat;
  sens_process_num : nat;
  accepted_particles : list string;
  sens_correction_factor : Q
}.

(** The sensitive-detector loop of [DetectorConstruction.ConstructSDandField]
    (lines 218-230): one [SensDetector] per placed detector volume, each
    built with [self.correction_factor]. *)
Definition ConstructSDandField_detectors (particles : list string)
    (process_num : nat) (correction_factor : Q) (n_detectors : nat)
  : list SensDetector :=
  map (fun i => {| sens_index := i; sens_process_num := process_num;
                   accepted_particles := particles;
                   sens_correction_factor := correction_factor |})
      (seq 0 n_detectors).

(** [SensDetector.ProcessHits] reduced to what depends on this package: the
    altitude written to column 10 of the ntuple row ([None] when no row is
    added) and whether the track is set to [fStopAndKill]. The other columns
    are copied from the Geant4 step. *)
Definition ProcessHits (self : SensDetector) (particle_type : string)
    (position_z : Q) : option Q * bool :=
  if negb (existsb (String.eqb particle_type) (accepted_particles self)) &&
     negb (existsb (String.eqb "all"%string) (accepted_particles self))
  then (None, false)
  else
    let z_pos := position_z - sens_correction_factor self in
    (Some (position_z - sens_correction_factor self),
     Qle_bool z_pos ground_level).

(** The global z of the point at height [t] above the centre of the flat
    detector [d]: the world volume sits at the origin, layer [fd_layer d] at
    [flat_layer_center] and the detector at [fd_position d] inside it, all
    without rotation. *)
Definition flat_detector_point_z (atmosphere_height : Q)
    (density_points : nat) (w : World) (d : FlatDetector) (t : Q) : Q :=
  flat_layer_center atmosphere_height density_points (correction_factor w)
    (fd_layer d) + fd_position d + t.

(** ** MagneticFieldConfig.transform_to_decimal_year *)

(** A Python [datetime.date]. *)
Record Date := {
  date_year : Z;
  date_month : Z;
  date_day : Z
}.

Section Calendar.
Local Open Scope Z_scope.

(** [calendar._is_leap] *)
Definition is_leap (year : Z) : bool :=
  (year mod 4 =? 0) && (negb (year mod 100 =? 0) || (year mod 400 =? 0)).

(** [datetime._days_in_month] *)
Definition days_in_month (year month : Z) : Z :=
  match month with
  | 2 => if is_leap year then 29 else 28
  | 4 | 6 | 9 | 11 => 30
  | 1 | 3 | 5 | 7 | 8 | 10 | 12 => 31
  | _ => 0
  end.

(** [datetime._days_before_month], from the table [_DAYS_BEFORE_MONTH] *)
Definition days_before_month (year month : Z) : Z :=
  let table :=
    match month with
    | 1 => 0 | 2 => 31 | 3 => 59 | 4 => 90 | 5 => 120 | 6 => 151
    | 7 => 181 | 8 => 212 | 9 => 243 | 10 => 273 | 11 => 304 | 12 => 334
    | _ => -1
    end in
  table + (if (2 <? month) && is_leap year then 1 else 0).

(** [datetime._days_before_year] *)
Definition days_before_year (year : Z) : Z :=
  let y := year - 1 in y * 365 + y / 4 - y / 100 + y / 400.

(** The checks of the [datetime.date] constructor ([MINYEAR = 1],
    [MAXYEAR = 9999]); [None] is its ValueError. *)
Definition make_date (year month day : Z) : option Date :=
  if (1 <=? year) && (year <=? 9999) && (1 <=? month) && (month <=? 12) &&
     (1 <=? day) && (day <=? days_in_month year month)
  then Some {| date_year := year; date_month := month; date_day := day |}
  else None.

Definition date_valid (date : Date) : bool :=
  match make_date (date_year date) (date_month date) (date_day date) with
  | Some _ => true
  | None => false
  end.

(** [date.toordinal()] *)
Definition toordinal (date : Date) : Z :=
  days_before_year (date_year date) +
  days_before_month (date_year date) (date_month date) + date_day date.

End Calendar.

(** [MagneticFieldConfig.transform_to_decimal_year] *)
Definition transform_to_decimal_year (date : Date) : option Q :=
  match make_date (date_year date) 1 1 with
  | None => None
  | Some first =>
      let start := toordinal first in
      match make_date (date_year date + 1)%Z 1 1 with
      | None => None
      | Some next =>
          let year_length := (toordinal next - start)%Z in
          Some (inject_Z (date_year date) +
                inject_Z (toordinal date - start)%Z / inject_Z year_length)
      end
  end.

(** ** SimRunner.run timestamps *)

(** [np.linspace(start, stop, num, endpoint=False)] *)
Definition linspace_open (start stop : Q) (num : nat) : list Q :=
  match num with
  | O => []
  | _ =>
      let step := (stop - start) / Qnat num in
      map (fun i => Qnat i * step + start) (seq 0 num)
  end.

(** the [timestamp] column of [SimRunner.run]:
    [sim_timestamp + np.linspace(0, time_resolution, len(data),
    endpoint=False)] *)
Definition run_timestamps (sim_timestamp time_resolution : Q) (rows : nat)
  : list Q :=
  map (fun delta => sim_timestamp + delta)
      (linspace_open 0 time_resolution rows).

(** ** utils.create_mag_file *)

(** One row of the csv written by [create_mag_file]. *)
Record MagFileRow := {
  mf_x : Q;
  mf_y : Q;
  mf_z : Q;
  mf_altitude : Q;
  mf_latitude : Q;
  mf_longitude : Q;
  mf_date : string
}.

Section MagFile.

(** [utils.get_mag_field(lat, lon, alt, date)], a query of a web service *)
Variable get_mag_field : Q -> Q -> Q -> string -> Q * Q * Q.

(** [create_mag_file]: one row per element of
    [itertools.product(lat, lon, alt, date)], in that order. *)
Definition create_mag_file (lat lon alt : list Q) (date : list string)
  : list MagFileRow :=
  flat_map (fun la =>
    flat_map (fun lo =>
      flat_map (fun al =>
        map (fun d =>
          let '(x, y, z) := get_mag_field la lo al d in
          {| mf_x := x; mf_y := y; mf_z := z; mf_altitude := al;
             mf_latitude := la; mf_longitude := lo; mf_date := d |})
          date) alt) lon) lat.

End MagFile.

(** The columns [x], [y], [z] and [altitude] that the file mode of
    [get_magnetic_field] reads back from such a csv. *)
Definition mag_rows_of_file (rows : list MagFileRow) : list MagRow :=
  map (fun r => {| row_x := mf_x r; row_y := mf_y r; row_z := mf_z r;
                   row_altitude := mf_altitude r |}) rows.

(** ** Specification helpers *)

(** the sum of the per-layer thicknesses [upper_bound - lower_bound] *)
Fixpoint total_thickness (limits : list (Q * Q)) : Q :=
  match limits with
  | [] => 0
  | (lo, hi) :: rest => (hi - lo) + total_thickness rest
  end.

(** [np.interp] at one query altitude *)
Definition np_interp1 (x : Q) (xp fp : list Q) : option Q :=
  match np_interp [x] xp fp with
  | Some (v :: _) => Some v
  | _ => None
  end.

(** [v] is the linear interpolation of the table [(xp, fp)] at [x], held at
    the first value below [xp[0]] and at the last value above [xp[-1]]. *)
Definition clamped_linear_interp (x : Q) (xp fp : list Q) (v : Q) : Prop :=
  (x <= nth 0 xp 0 -> v == nth 0 fp 0) /\
  (last xp 0 <= x -> v == last fp 0) /\
  (forall j, (S j < length xp)%nat ->
     nth j xp 0 <= x < nth (S j) xp 0 ->
     v == nth j fp 0 + (nth (S j) fp 0 - nth j fp 0)
                       / (nth (S j) xp 0 - nth j xp 0) * (x - nth j xp 0)).

(** The field the layer would get if the table were interpolated at the real
    altitude of the layer's midpoint, [(lo + hi) / 2 - correction_factor]. *)
Definition midpoint_field_file (rows : list MagRow) (w : World)
  : option (list (Q * Q * Q)) :=
  let mids := map (fun '(lo, hi) => (lo + hi) / 2 - correction_factor w)
                  (altitude_limits w) in
  get_magnetic_field (fun _ _ _ _ => None) (FromFile rows) mids.

(** ** Arithmetic and list lemmas *)

Lemma Qnat_succ (n : nat) : Qnat (S n) == Qnat n + 1.
Proof.
  unfold Qnat. rewrite Nat2Z.inj_succ. unfold Z.succ.
  rewrite inject_Z_plus. reflexivity.
Qed.

Lemma Qnat_nonzero (n : nat) : (1 <= n)%nat -> ~ Qnat n == 0.
Proof.
  intros Hn. unfold Qnat, Qeq. simpl. lia.
Qed.

Lemma Qnat_0 : Qnat 0 == 0.
Proof. reflexivity. Qed.

Lemma Qltb_iff (x y : Q) : Qltb x y = true <-> x < y.
Proof.
  unfold Qltb. rewrite negb_true_iff. split.
  - intros H. apply Qnot_le_lt. intros Hle.
    apply Qle_bool_iff in Hle. congruence.
  - intros H. destruct (Qle_bool y x) eqn:E; [|reflexivity].
    apply Qle_bool_iff in E. exfalso. apply (Qlt_not_le x y); assumption.
Qed.

Lemma Qltb_false_iff (x y : Q) : Qltb x y = false <-> y <= x.
Proof.
  unfold Qltb. rewrite negb_false_iff. apply Qle_bool_iff.
Qed.

Lemma nth_error_map_seq {A : Type} (f : nat -> A) (s n i : nat) :
  (i < n)%nat -> nth_error (map f (seq s n)) i = Some (f (s + i)%nat).
Proof.
  intros Hi. rewrite nth_error_map, nth_error_seq.
  apply Nat.ltb_lt in Hi. rewrite Hi. reflexivity.
Qed.

Lemma nth_error_map_seq_inv {A : Type} (f : nat -> A) (s n i : nat) (a : A) :
  nth_error (map f (seq s n)) i = Some a -> (i < n)%nat /\ a = f (s + i)%nat.
Proof.
  rewrite nth_error_map, nth_error_seq.
  destruct (Nat.ltb i n) eqn:E; simpl; [|discriminate].
  intros Ha. injection Ha as <-. apply Nat.ltb_lt in E. auto.
Qed.

(** Layers built by [map f (seq s n)] whose consecutive bounds agree are
    contiguous, and their thicknesses add up. *)
Lemma map_seq_contiguous (f : nat -> Q * Q) (s n : nat) :
  (forall i, snd (f i) == fst (f (S i))) ->
  forall i lo hi lo' hi',
    nth_error (map f (seq s n)) i = Some (lo, hi) ->
    nth_error (map f (seq s n)) (S i) = Some (lo', hi') ->
    hi == lo'.
Proof.
  intros Hf i lo hi lo' hi' H1 H2.
  apply nth_error_map_seq_inv in H1 as [_ E1].
  apply nth_error_map_seq_inv in H2 as [_ E2].
  specialize (Hf (s + i)%nat).
  rewrite Nat.add_succ_r in E2.
  rewrite <- E1 in Hf. rewrite <- E2 in Hf. exact Hf.
Qed.

Lemma map_seq_total (f : nat -> Q * Q) (d : Q) (s n : nat) :
  (forall i, snd (f i) - fst (f i) == d) ->
  total_thickness (map f (seq s n)) == Qnat n * d.
Proof.
  intros Hf. revert s. induction n as [|n IH]; intros s.
  - reflexivity.
  - simpl. specialize (Hf s). destruct (f s) as [lo hi] eqn:E.
    simpl in Hf. rewrite IH, Hf, Qnat_succ. ring.
Qed.

Lemma flat_layer_limit_next (H : Q) (N : nat) (c : Q) (i : nat) :
  (1 <= N)%nat ->
  snd (flat_layer_limit H N c i) == fst (flat_layer_limit H N c (S i)).
Proof.
  intros HN. pose proof (Qnat_nonzero N HN). unfold flat_layer_limit. simpl.
  rewrite Qnat_succ. field. assumption.
Qed.

Lemma flat_layer_limit_thickness (H : Q) (N : nat) (c : Q) (i : nat) :
  (1 <= N)%nat ->
  snd (flat_layer_limit H N c i) - fst (flat_layer_limit H N c i)
    == H / Qnat N.
Proof.
  intros HN. pose proof (Qnat_nonzero N HN). unfold flat_layer_limit. simpl.
  field. assumption.
Qed.

Lemma spherical_layer_limit_next (H : Q) (N : nat) (c : Q) (i : nat) :
  snd (spherical_layer_limit H N c i)
    == fst (spherical_layer_limit H N c (S i)).
Proof. reflexivity. Qed.

Lemma spherical_layer_limit_thickness (H : Q) (N : nat) (c : Q) (i : nat) :
  (1 <= N)%nat ->
  snd (spherical_layer_limit H N c i) - fst (spherical_layer_limit H N c i)
    == H / Qnat N.
Proof.
  intros HN. pose proof (Qnat_nonzero N HN). unfold spherical_layer_limit.
  simpl. rewrite Qnat_succ. field. assumption.
Qed.

Lemma total_layers_height (H : Q) (N : nat) :
  (1 <= N)%nat -> Qnat N * (H / Qnat N) == H.
Proof.
  intros HN. pose proof (Qnat_nonzero N HN). field. assumption.
Qed.

(** ** Layer bounds *)

(** C1: for [N >= 1], in the flat and in the curved world the [N] layers are
    contiguous ([upper_bound] of layer [i] is [lower_bound] of layer
    [i+1]) and their thicknesses add up to [atmosphere_height]. *)
Theorem layers_contiguous_and_total_height :
  forall (earth_radius atmosphere_height : Q) (density_points : nat),
    (1 <= density_points)%nat -> 0 < atmosphere_height ->
    forall limits,
      limits = altitude_limits
                 (construct_flat_layers atmosphere_height density_points) \/
      limits = altitude_limits
                 (construct_spherical_layers earth_radius atmosphere_height
                    density_points) ->
      length limits = density_points /\
      (forall i lo hi lo' hi',
          nth_error limits i = Some (lo, hi) ->
          nth_error limits (S i) = Some (lo', hi') -> hi == lo') /\
      total_thickness limits == atmosphere_height.
Proof.
  intros er H N HN _ limits [-> | ->]; simpl; split; [| split | | split].
  - rewrite length_map, length_seq. reflexivity.
  - apply map_seq_contiguous. intros i. apply flat_layer_limit_next, HN.
  - rewrite (map_seq_total _ (H / Qnat N)).
    + apply total_layers_height, HN.
    + intros i. apply flat_layer_limit_thickness, HN.
  - rewrite length_map, length_seq. reflexivity.
  - apply map_seq_contiguous. intros i. apply spherical_layer_limit_next.
  - rewrite (map_seq_total _ (H / Qnat N)).
    + apply total_layers_height, HN.
    + intros i. apply spherical_layer_limit_thickness, HN.
Qed.

Lemma layers_contiguous_and_total_height_witness :
  ((1 <= 10)%nat /\ 0 < 70 * km) /\
  let limits := altitude_limits (construct_flat_layers (70 * km) 10) in
  length limits = 10%nat /\
  (forall i lo hi lo' hi',
      nth_error limits i = Some (lo, hi) ->
      nth_error limits (S i) = Some (lo', hi') -> hi == lo') /\
  total_thickness limits == 70 * km.
Proof.
  split; [split; [lia | reflexivity] |].
  apply (layers_contiguous_and_total_height 6371 (70 * km) 10);
    [lia | reflexivity | left; reflexivity].
Defined.

(** C6 (as stated, refuted): with the conversion
    [real_altitude = local_coordinate + offset] the ground of a flat world
    of 70 km in 10 layers is not at real altitude 0: the lower bound of
    layer 0 plus the offset is [-70 km]. *)
Lemma flat_ground_offset_counterexample :
  let w := construct_flat_layers (70 * km) 10 in
  ~ (fst (nth 0 (altitude_limits w) (0, 0)) + correction_factor w == 0).
Proof. vm_compute. discriminate. Qed.

(** C6 (amended): in the flat world [correction_factor = -atmosphere_height/2]
    and the lower bound of layer 0 equals the offset, so under the code's
    convention [local = real + offset] (and [real = local - offset], as in
    [detector.py]) layer 0 starts at real altitude 0. *)
Theorem flat_correction_factor_ground :
  forall (atmosphere_height : Q) (density_points : nat),
    (1 <= density_points)%nat ->
    let w := construct_flat_layers atmosphere_height density_points in
    correction_factor w == - atmosphere_height / 2 /\
    exists lo hi,
      nth_error (altitude_limits w) 0 = Some (lo, hi) /\
      lo == 0 * km + correction_factor w /\
      lo - correction_factor w == 0.
Proof.
  intros H N HN w. split.
  - reflexivity.
  - exists (fst (flat_layer_limit H N (- H / 2) 0)),
           (snd (flat_layer_limit H N (- H / 2) 0)).
    split; [| split].
    + destruct N as [| N']; [lia |]. reflexivity.
    + subst w. simpl. rewrite Qnat_0. field.
      apply Qnat_nonzero, HN.
    + subst w. simpl. rewrite Qnat_0. field.
      apply Qnat_nonzero, HN.
Qed.

Lemma flat_correction_factor_ground_witness :
  (1 <= 10)%nat /\
  let w := construct_flat_layers (70 * km) 10 in
  correction_factor w == - (70 * km) / 2 /\
  exists lo hi,
    nth_error (altitude_limits w) 0 = Some (lo, hi) /\
    lo == 0 * km + correction_factor w /\
    lo - correction_factor w == 0.
Proof.
  split; [lia |]. apply (flat_correction_factor_ground (70 * km) 10). lia.
Defined.

(** C7: in the curved world [correction_factor] is the earth radius (in
    Geant4 units) and so is the lower bound of layer 0. *)
Theorem spherical_correction_factor_earth_radius :
  forall (earth_radius atmosphere_height : Q) (density_points : nat),
    (1 <= density_points)%nat ->
    let w := construct_spherical_layers earth_radius atmosphere_height
               density_points in
    correction_factor w = earth_radius * km /\
    exists lo hi,
      nth_error (altitude_limits w) 0 = Some (lo, hi) /\
      lo == earth_radius * km.
Proof.
  intros er H N HN w. split; [reflexivity |].
  exists (fst (spherical_layer_limit H N (er * km) 0)),
         (snd (spherical_layer_limit H N (er * km) 0)).
  split.
  - destruct N as [| N']; [lia |]. reflexivity.
  - simpl. rewrite Qnat_0. field. apply Qnat_nonzero, HN.
Qed.

Lemma spherical_correction_factor_earth_radius_witness :
  (1 <= 10)%nat /\
  let w := construct_spherical_layers 6371 (70 * km) 10 in
  correction_factor w = 6371 * km /\
  exists lo hi,
    nth_error (altitude_limits w) 0 = Some (lo, hi) /\ lo == 6371 * km.
Proof.
  split; [lia |]. apply (spherical_correction_factor_earth_radius 6371 (70 * km) 10).
  lia.
Defined.

(** ** UniformMagneticField *)

(** C10: [SetFieldy val] changes only [fby]; a later [GetFieldValue] writes
    the old [x], the new [y] and the old [z] into [Bfield]. *)
Theorem SetFieldy_frame :
  forall (f : UniformMagneticField) (val : Q) (Point Bfield : list Q),
    (3 <= length Bfield)%nat ->
    fbx (SetFieldy f val) = fbx f /\
    fby (SetFieldy f val) = val /\
    fbz (SetFieldy f val) = fbz f /\
    GetFieldValue (SetFieldy f val) Point Bfield
      = Some (fbx f :: val :: fbz f :: skipn 3 Bfield).
Proof.
  intros f val Point B HB.
  do 3 (split; [reflexivity |]).
  destruct B as [| b0 [| b1 [| b2 rest]]]; simpl in HB; try lia.
  reflexivity.
Qed.

Lemma SetFieldy_frame_witness :
  (3 <= length [0; 0; 0])%nat /\
  let f := UniformMagneticField_init 1 2 3 in
  fbx (SetFieldy f 5) = fbx f /\
  fby (SetFieldy f 5) = 5 /\
  fbz (SetFieldy f 5) = fbz f /\
  GetFieldValue (SetFieldy f 5) [] [0; 0; 0]
    = Some (fbx f :: 5 :: fbz f :: skipn 3 [0; 0; 0]).
Proof.
  split; [simpl; lia |].
  apply (SetFieldy_frame (UniformMagneticField_init 1 2 3) 5 [] [0; 0; 0]).
  simpl. lia.
Defined.

(** ** Detector placement *)

Lemma find_layer_from_range (alt : Q) (limits : list (Q * Q)) (j : nat) :
  find_layer_from j alt limits = 0%nat \/
  (j <= find_layer_from j alt limits < j + length limits)%nat.
Proof.
  revert j. induction limits as [| [lo hi] rest IH]; intros j; simpl.
  - left. reflexivity.
  - destruct (Qle_bool lo alt && Qle_bool alt hi).
    + right. lia.
    + destruct (IH (S j)) as [E | E]; [left; exact E | right; lia].
Qed.

Lemma find_layer_lt (alt : Q) (limits : list (Q * Q)) :
  (1 <= length limits)%nat -> (find_layer alt limits < length limits)%nat.
Proof.
  intros Hl. unfold find_layer.
  destruct (find_layer_from_range alt limits 0) as [E | E]; lia.
Qed.

Lemma find_layer_from_outside (alt : Q) (limits : list (Q * Q)) (j : nat) :
  forallb (fun '(lo, hi) => negb (Qle_bool lo alt && Qle_bool alt hi))
    limits = true ->
  find_layer_from j alt limits = 0%nat.
Proof.
  revert j. induction limits as [| [lo hi] rest IH]; intros j Hout; simpl.
  - reflexivity.
  - simpl in Hout. apply andb_prop in Hout as [H1 H2].
    apply negb_true_iff in H1. rewrite H1. apply IH, H2.
Qed.

Lemma map_option_nth {A B : Type} (f : A -> option B) (l : list A)
    (bs : list B) :
  map_option f l = Some bs ->
  length bs = length l /\
  forall k a, nth_error l k = Some a ->
    exists b, f a = Some b /\ nth_error bs k = Some b.
Proof.
  revert bs. induction l as [| a l IH]; intros bs Hm; simpl in Hm.
  - injection Hm as <-. split; [reflexivity |]. intros [|k] a'; discriminate.
  - destruct (f a) as [b |] eqn:Ef; [| discriminate].
    destruct (map_option f l) as [bs' |] eqn:Er; [| discriminate].
    injection Hm as <-. destruct (IH bs' eq_refl) as [Hlen Hnth].
    split; [simpl; lia |].
    intros [| k] a' Ha; simpl in Ha.
    + injection Ha as <-. exists b. auto.
    + apply Hnth, Ha.
Qed.

Lemma map_option_total {A B : Type} (f : A -> option B) (P : B -> Prop)
    (l : list A) :
  (forall a, exists b, f a = Some b /\ P b) ->
  exists bs, map_option f l = Some bs /\ Forall P bs.
Proof.
  intros Hf. induction l as [| a l [bs [Hbs HP]]].
  - exists []. auto.
  - destruct (Hf a) as [b [Hb Pb]]. exists (b :: bs). simpl.
    rewrite Hb, Hbs. auto.
Qed.

Lemma map_option_Forall {A B : Type} (f : A -> option B) (P : B -> Prop)
    (l : list A) (bs : list B) :
  (forall a b, f a = Some b -> P b) ->
  map_option f l = Some bs -> Forall P bs.
Proof.
  intros Hf. revert bs. induction l as [| a l IH]; intros bs Hm; simpl in Hm.
  - injection Hm as <-. constructor.
  - destruct (f a) as [b |] eqn:Ef; [| discriminate].
    destruct (map_option f l) as [bs' |] eqn:Er; [| discriminate].
    injection Hm as <-. constructor; [apply (Hf a), Ef | apply IH; reflexivity].
Qed.

Section PlacementFacts.

Context {Material : Type}.
Variables (atmosphere_height : Q) (density_points : nat)
          (material : list Material) (limits : list (Q * Q)).
Hypothesis Hmaterial : length material = length limits.
Hypothesis Hlayers : (1 <= length limits)%nat.

Lemma place_flat_detector_some (alt : Q) :
  exists d,
    place_flat_detector atmosphere_height density_points material limits alt
      = Some d /\ fd_layer d = find_layer alt limits.
Proof.
  unfold place_flat_detector.
  pose proof (find_layer_lt alt limits Hlayers) as Hj.
  destruct (nth_error material (find_layer alt limits)) eqn:E1.
  2: { apply nth_error_None in E1. lia. }
  destruct (nth_error limits (find_layer alt limits)) as [[lo hi] |] eqn:E2.
  2: { apply nth_error_None in E2. lia. }
  eexists. split; reflexivity.
Qed.

Lemma place_spherical_detector_some (alt : Q) :
  exists d,
    place_spherical_detector atmosphere_height density_points material limits
      alt = Some d /\ sd_layer d = find_layer alt limits.
Proof.
  unfold place_spherical_detector.
  pose proof (find_layer_lt alt limits Hlayers) as Hj.
  destruct (nth_error limits (find_layer alt limits)) as [[lo hi] |] eqn:E2.
  2: { apply nth_error_None in E2. lia. }
  destruct (nth_error material (find_layer alt limits)) eqn:E1.
  2: { apply nth_error_None in E1. lia. }
  eexists. split; reflexivity.
Qed.

End PlacementFacts.

Lemma place_flat_detector_layer {M : Type} (H : Q) (N : nat)
    (material : list M) (limits : list (Q * Q)) (alt : Q) (d : FlatDetector) :
  place_flat_detector H N material limits alt = Some d ->
  fd_layer d = find_layer alt limits /\
  fd_half_z d = detector_size H N / 2 /\
  exists lo hi, nth_error limits (fd_layer d) = Some (lo, hi).
Proof.
  unfold place_flat_detector.
  destruct (nth_error material (find_layer alt limits)); [| discriminate].
  destruct (nth_error limits (find_layer alt limits)) as [[lo hi] |] eqn:E;
    [| discriminate].
  intros Hd. injection Hd as <-. simpl. repeat split. eauto.
Qed.

Lemma place_spherical_detector_layer {M : Type} (H : Q) (N : nat)
    (material : list M) (limits : list (Q * Q)) (alt : Q) (d : SphDetector) :
  place_spherical_detector H N material limits alt = Some d ->
  sd_layer d = find_layer alt limits /\
  sd_rmax d - sd_rmin d == detector_size H N /\
  exists lo hi, nth_error limits (sd_layer d) = Some (lo, hi).
Proof.
  unfold place_spherical_detector.
  destruct (nth_error limits (find_layer alt limits)) as [[lo hi] |] eqn:E;
    [| discriminate].
  destruct (nth_error material (find_layer alt limits)); [| discriminate].
  intros Hd. injection Hd as <-. simpl. repeat split.
  - ring.
  - eauto.
Qed.

Lemma Qmin_half (a b : Q) : Qmin a b / 2 == Qmin (a / 2) (b / 2).
Proof.
  assert (Hh : 0 <= / 2) by (vm_compute; discriminate).
  destruct (Q.min_spec a b) as [[Hab E] | [Hba E]]; rewrite E.
  - rewrite Q.min_l; [reflexivity |].
    unfold Qdiv. apply Qmult_le_compat_r; [apply Qlt_le_weak, Hab | exact Hh].
  - rewrite Q.min_r; [reflexivity |].
    unfold Qdiv. apply Qmult_le_compat_r; [exact Hba | exact Hh].
Qed.

Lemma detector_size_bounds (atmosphere_height : Q) (density_points : nat)
    (t : Q) :
  t == atmosphere_height / Qnat density_points ->
  detector_size atmosphere_height density_points / 2
    == Qmin (5 * mm) (t / 20) /\
  2 * (detector_size atmosphere_height density_points / 2) <= t / 10.
Proof.
  intros Ht. unfold detector_size. split.
  - rewrite Qmin_half. rewrite Ht.
    assert (E1 : 10 * mm / 2 == 5 * mm) by reflexivity.
    assert (E2 : atmosphere_height / Qnat density_points / 10 / 2
                 == atmosphere_height / Qnat density_points / 20).
    { unfold Qdiv. rewrite <- Qmult_assoc. apply Qmult_comp; reflexivity. }
    rewrite E1, E2. reflexivity.
  - assert (E : 2 * (Qmin (10 * mm) (atmosphere_height / Qnat density_points
                                       / 10) / 2)
                == Qmin (10 * mm) (atmosphere_height / Qnat density_points
                                     / 10)) by field.
    rewrite E, Ht. apply Q.le_min_r.
Qed.

Section ConstructFacts.

Context {Material : Type}.
Variables (earth_radius atmosphere_height : Q) (density_points : nat)
          (material : list Material).
Hypothesis Hpoints : (1 <= density_points)%nat.
Hypothesis Hmaterial : length material = density_points.

Lemma construct_flat_world_total (sd_altitude : list Q) :
  let w := construct_flat_layers atmosphere_height density_points in
  exists ds,
    map_option
      (place_flat_detector atmosphere_height density_points material
         (altitude_limits w))
      (map (fun a => a * km + correction_factor w) sd_altitude) = Some ds /\
    Forall (fun d => (fd_layer d < density_points)%nat) ds.
Proof.
  intros w.
  assert (Hlen : length (altitude_limits w) = density_points).
  { subst w. simpl. rewrite length_map, length_seq. reflexivity. }
  apply map_option_total. intros a.
  destruct (place_flat_detector_some atmosphere_height density_points material
              (altitude_limits w) ltac:(lia) ltac:(lia) a) as [d [Hd Hl]].
  exists d. split; [exact Hd |]. rewrite Hl, <- Hlen.
  apply find_layer_lt. lia.
Qed.

Lemma construct_spherical_world_total (sd_altitude : list Q) :
  let w := construct_spherical_layers earth_radius atmosphere_height
             density_points in
  exists ds,
    map_option
      (place_spherical_detector atmosphere_height density_points material
         (altitude_limits w))
      (map (fun a => a * km + correction_factor w) sd_altitude) = Some ds /\
    Forall (fun d => (sd_layer d < density_points)%nat) ds.
Proof.
  intros w.
  assert (Hlen : length (altitude_limits w) = density_points).
  { subst w. simpl. rewrite length_map, length_seq. reflexivity. }
  apply map_option_total. intros a.
  destruct (place_spherical_detector_some atmosphere_height density_points
              material (altitude_limits w) ltac:(lia) ltac:(lia) a)
    as [d [Hd Hl]].
  exists d. split; [exact Hd |]. rewrite Hl, <- Hlen.
  apply find_layer_lt. lia.
Qed.

End ConstructFacts.

(** C9: with [N >= 1] layers (and one material per layer) the detector loop
    of both worlds never indexes out of range: construction returns a
    result and every detector's layer index is in [[0, N-1]], also for
    altitudes outside every layer. *)
Theorem detector_layer_index_in_range :
  forall {Material : Type} (earth_radius atmosphere_height : Q)
         (density_points : nat) (material : list Material)
         (sd_enabled : bool) (sd_altitude : list Q),
    (1 <= density_points)%nat -> length material = density_points ->
    (exists w ds,
        construct_flat_world atmosphere_height density_points material
          sd_enabled sd_altitude = Some (w, ds) /\
        Forall (fun d => (fd_layer d < density_points)%nat) ds) /\
    (exists w ds,
        construct_spherical_world earth_radius atmosphere_height
          density_points material sd_enabled sd_altitude = Some (w, ds) /\
        Forall (fun d => (sd_layer d < density_points)%nat) ds).
Proof.
  intros M er H N material en alts HN Hm. split.
  - exists (construct_flat_layers H N). unfold construct_flat_world.
    destruct en.
    + destruct (construct_flat_world_total H N material HN Hm alts)
        as [ds [Hds HF]].
      cbv zeta in Hds. rewrite Hds. eauto.
    + exists []. auto.
  - exists (construct_spherical_layers er H N).
    unfold construct_spherical_world. destruct en.
    + destruct (construct_spherical_world_total er H N material HN Hm alts)
        as [ds [Hds HF]].
      cbv zeta in Hds. rewrite Hds. eauto.
    + exists []. auto.
Qed.

Lemma detector_layer_index_in_range_witness :
  ((1 <= 10)%nat /\ length (repeat tt 10) = 10%nat) /\
  (exists w ds,
      construct_flat_world (70 * km) 10 (repeat tt 10) true [0; 100] =
        Some (w, ds) /\ Forall (fun d => (fd_layer d < 10)%nat) ds) /\
  (exists w ds,
      construct_spherical_world 6371 (70 * km) 10 (repeat tt 10) true
        [0; 100] = Some (w, ds) /\
      Forall (fun d => (sd_layer d < 10)%nat) ds).
Proof.
  split; [split; [lia | reflexivity] |].
  apply (detector_layer_index_in_range 6371 (70 * km) 10 (repeat tt 10) true
           [0; 100]); [lia | reflexivity].
Defined.

(** C2 (as stated, refuted): a detector requested at 100 km in a flat world
    of 70 km is outside every layer, yet construction succeeds and still
    creates one detector for it. *)
Lemma outside_detector_counterexample :
  let w := construct_flat_layers (70 * km) 10 in
  forallb (fun '(lo, hi) =>
             negb (Qle_bool lo (100 * km + correction_factor w) &&
                   Qle_bool (100 * km + correction_factor w) hi))
    (altitude_limits w) = true /\
  match construct_flat_world (70 * km) 10 (repeat tt 10) true [100] with
  | Some (_, ds) => length ds = 1%nat
  | None => False
  end.
Proof. vm_compute. split; reflexivity. Qed.

(** C2 (amended): a requested altitude outside every layer neither aborts
    construction nor drops the detector: in both worlds the detector of
    that altitude is created in layer 0, and nothing marks it. *)
Theorem outside_detector_placed_in_layer_0 :
  forall {Material : Type} (earth_radius atmosphere_height : Q)
         (density_points : nat) (material : list Material)
         (sd_altitude : list Q) (k : nat) (a : Q),
    (1 <= density_points)%nat -> length material = density_points ->
    nth_error sd_altitude k = Some a ->
    (let w := construct_flat_layers atmosphere_height density_points in
     let x := a * km + correction_factor w in
     forallb (fun '(lo, hi) => negb (Qle_bool lo x && Qle_bool x hi))
       (altitude_limits w) = true ->
     exists ds,
       construct_flat_world atmosphere_height density_points material true
         sd_altitude = Some (w, ds) /\
       length ds = length sd_altitude /\
       exists d, nth_error ds k = Some d /\ fd_layer d = 0%nat) /\
    (let w := construct_spherical_layers earth_radius atmosphere_height
                density_points in
     let x := a * km + correction_factor w in
     forallb (fun '(lo, hi) => negb (Qle_bool lo x && Qle_bool x hi))
       (altitude_limits w) = true ->
     exists ds,
       construct_spherical_world earth_radius atmosphere_height
         density_points material true sd_altitude = Some (w, ds) /\
       length ds = length sd_altitude /\
       exists d, nth_error ds k = Some d /\ sd_layer d = 0%nat).
Proof.
  intros M er H N material alts k a HN Hm Hk. split.
  - intros w x Hout.
    destruct (construct_flat_world_total H N material HN Hm alts)
      as [ds [Hds _]].
    cbv zeta in Hds. exists ds. unfold construct_flat_world. rewrite Hds.
    split; [reflexivity |].
    apply map_option_nth in Hds as [Hlen Hnth].
    rewrite length_map in Hlen. split; [exact Hlen |].
    destruct (Hnth k x) as [d [Hd Hdk]].
    { rewrite nth_error_map, Hk. reflexivity. }
    exists d. split; [exact Hdk |].
    apply place_flat_detector_layer in Hd as [Hl _]. rewrite Hl.
    apply find_layer_from_outside, Hout.
  - intros w x Hout.
    destruct (construct_spherical_world_total er H N material HN Hm alts)
      as [ds [Hds _]].
    cbv zeta in Hds. exists ds. unfold construct_spherical_world. rewrite Hds.
    split; [reflexivity |].
    apply map_option_nth in Hds as [Hlen Hnth].
    rewrite length_map in Hlen. split; [exact Hlen |].
    destruct (Hnth k x) as [d [Hd Hdk]].
    { rewrite nth_error_map, Hk. reflexivity. }
    exists d. split; [exact Hdk |].
    apply place_spherical_detector_layer in Hd as [Hl _]. rewrite Hl.
    apply find_layer_from_outside, Hout.
Qed.

Lemma outside_detector_placed_in_layer_0_witness :
  ((1 <= 10)%nat /\ length (repeat tt 10) = 10%nat /\
   nth_error [0; 100] 1 = Some 100) /\
  exists ds,
    construct_flat_world (70 * km) 10 (repeat tt 10) true [0; 100] =
      Some (construct_flat_layers (70 * km) 10, ds) /\
    length ds = 2%nat /\
    exists d, nth_error ds 1 = Some d /\ fd_layer d = 0%nat.
Proof.
  split; [split; [lia | split; reflexivity] |].
  apply (outside_detector_placed_in_layer_0 (Material := unit) 6371 (70 * km)
           10 (repeat tt 10) [0; 100] 1 100); [lia | reflexivity | reflexivity |].
  vm_compute. reflexivity.
Defined.

(** C5: every placed detector's half size is
    [min(5 mm, layer_thickness / 20)] (the code's [detector_size] is
    [min(10 mm, thickness / 10)], the full extent), so its full extent is at
    most a tenth of its layer's thickness: the half z of the box of a flat
    world, half of [rmax - rmin] of the shell of a curved world. *)
Theorem detector_half_size_min :
  forall {Material : Type} (earth_radius atmosphere_height : Q)
         (density_points : nat) (material : list Material)
         (sd_enabled : bool) (sd_altitude : list Q)
         (w1 : World) (ds1 : list FlatDetector)
         (w2 : World) (ds2 : list SphDetector),
    construct_flat_world atmosphere_height density_points material sd_enabled
      sd_altitude = Some (w1, ds1) ->
    construct_spherical_world earth_radius atmosphere_height density_points
      material sd_enabled sd_altitude = Some (w2, ds2) ->
    Forall (fun d => exists lo hi,
                nth_error (altitude_limits w1) (fd_layer d) = Some (lo, hi) /\
                fd_half_z d == Qmin (5 * mm) ((hi - lo) / 20) /\
                2 * fd_half_z d <= (hi - lo) / 10) ds1 /\
    Forall (fun d => exists lo hi,
                nth_error (altitude_limits w2) (sd_layer d) = Some (lo, hi) /\
                (sd_rmax d - sd_rmin d) / 2 == Qmin (5 * mm) ((hi - lo) / 20) /\
                sd_rmax d - sd_rmin d <= (hi - lo) / 10) ds2.
Proof.
  intros M er H N material en alts w1 ds1 w2 ds2 Hf Hs. split.
  - unfold construct_flat_world in Hf. destruct en.
    2: { injection Hf as _ <-. constructor. }
    destruct (map_option _ _) as [ds |] eqn:Hds; [| discriminate].
    injection Hf as <- <-. revert Hds. apply map_option_Forall.
    intros x d Hd.
    apply place_flat_detector_layer in Hd as [_ [Hhalf [lo [hi Hnth]]]].
    exists lo, hi. split; [exact Hnth |].
    simpl in Hnth. apply nth_error_map_seq_inv in Hnth as [Hi Hlh].
    assert (Ht : hi - lo == H / Qnat N).
    { pose proof (flat_layer_limit_thickness H N (- H / 2) (0 + fd_layer d)
                    ltac:(lia)) as Ht.
      rewrite <- Hlh in Ht. exact Ht. }
    rewrite Hhalf. apply detector_size_bounds, Ht.
  - unfold construct_spherical_world in Hs. destruct en.
    2: { injection Hs as _ <-. constructor. }
    destruct (map_option _ _) as [ds |] eqn:Hds; [| discriminate].
    injection Hs as <- <-. revert Hds. apply map_option_Forall.
    intros x d Hd.
    apply place_spherical_detector_layer in Hd as [_ [Hsize [lo [hi Hnth]]]].
    exists lo, hi. split; [exact Hnth |].
    simpl in Hnth. apply nth_error_map_seq_inv in Hnth as [Hi Hlh].
    assert (Ht : hi - lo == H / Qnat N).
    { pose proof (spherical_layer_limit_thickness H N (er * km)
                    (0 + sd_layer d) ltac:(lia)) as Ht.
      rewrite <- Hlh in Ht. exact Ht. }
    destruct (detector_size_bounds H N (hi - lo) Ht) as [B1 B2].
    rewrite Hsize. split; [exact B1 |].
    assert (E : 2 * (detector_size H N / 2) == detector_size H N) by field.
    rewrite <- E. exact B2.
Qed.

Lemma detector_half_size_min_witness :
  exists w1 ds1 w2 ds2,
    (construct_flat_world (70 * km) 10 (repeat tt 10) true [0; 35; 100]
       = Some (w1, ds1) /\
     construct_spherical_world 6371 (70 * km) 10 (repeat tt 10) true
       [0; 35; 100] = Some (w2, ds2)) /\
    Forall (fun d => exists lo hi,
                nth_error (altitude_limits w1) (fd_layer d) = Some (lo, hi) /\
                fd_half_z d == Qmin (5 * mm) ((hi - lo) / 20) /\
                2 * fd_half_z d <= (hi - lo) / 10) ds1 /\
    Forall (fun d => exists lo hi,
                nth_error (altitude_limits w2) (sd_layer d) = Some (lo, hi) /\
                (sd_rmax d - sd_rmin d) / 2 == Qmin (5 * mm) ((hi - lo) / 20) /\
                sd_rmax d - sd_rmin d <= (hi - lo) / 10) ds2.
Proof.
  do 4 eexists. split; [split; vm_compute; reflexivity |].
  apply (detector_half_size_min 6371 (70 * km) 10 (repeat tt 10) true
           [0; 35; 100]); vm_compute; reflexivity.
Defined.

(** C4 (code bug): the lower clamp of [construct_flat_world] adds half the
    detector size to the requested position instead of moving the inner face
    onto the lower bound. A detector requested at real altitude 2 mm in a
    flat world of 70 km in 10 layers (box half height 3500 km,
    detector_size 10 mm) ends with its inner face at [lower_lim + 2 mm], not
    at [lower_lim = -3500000]; the upper clamp of the same detector loop
    does land the outer face on [upper_lim]. *)
Theorem flat_lower_clamp_misses_bound :
  match construct_flat_world (70 * km) 10 (repeat tt 10) true [2 # 1000000]
  with
  | Some (_, [d]) =>
      fd_layer d = 0%nat /\
      fd_position d - fd_half_z d == -3500000 + 2 /\
      ~ (fd_position d - fd_half_z d == -3500000)
  | _ => False
  end.
Proof. vm_compute. split; [reflexivity | split; [reflexivity | discriminate]].
Qed.

(** ** np.interp on a strictly increasing table *)

Lemma length_linspace (start stop : Q) (num : nat) :
  length (linspace start stop num) = num.
Proof.
  destruct num as [| [| div]]; simpl; try reflexivity.
  rewrite length_app, length_map, length_seq. simpl. lia.
Qed.

Lemma sorted_head_le (x : Q) (l : list Q) (j : nat) :
  StronglySorted Qlt (x :: l) -> (j < S (length l))%nat ->
  x <= nth j (x :: l) 0.
Proof.
  intros Hs Hj. destruct j as [| j]; simpl.
  - apply Qle_refl.
  - apply StronglySorted_inv in Hs as [_ Hall].
    rewrite Forall_forall in Hall. apply Qlt_le_weak, Hall, nth_In. lia.
Qed.

Lemma sorted_le_last (l : list Q) (j : nat) (d : Q) :
  StronglySorted Qlt l -> (j < length l)%nat -> nth j l 0 <= last l d.
Proof.
  revert j. induction l as [| x l IH]; intros j Hs Hj; simpl in Hj; [lia |].
  destruct l as [| y l].
  - destruct j as [| j]; [apply Qle_refl | simpl in Hj; lia].
  - pose proof Hs as Hs'. apply StronglySorted_inv in Hs' as [Hs' Hall].
    change (last (x :: y :: l) d) with (last (y :: l) d).
    destruct j as [| j].
    + simpl nth. apply Qle_trans with (nth 0 (y :: l) 0).
      * simpl. apply Qlt_le_weak. inversion Hall; assumption.
      * apply IH; [exact Hs' | simpl; lia].
    + simpl nth. apply IH; [exact Hs' | simpl in Hj |- *; lia].
Qed.

Lemma last_combine (xp fp : list Q) (d1 d2 : Q) :
  length xp = length fp ->
  last (combine xp fp) (d1, d2) = (last xp d1, last fp d2).
Proof.
  revert fp. induction xp as [| x xp IH]; intros fp Hl;
    destruct fp as [| y fp]; simpl in Hl; try discriminate.
  - reflexivity.
  - destruct xp as [| x' xp], fp as [| y' fp]; simpl in Hl; try discriminate.
    + reflexivity.
    + change (last (combine (x :: x' :: xp) (y :: y' :: fp)) (d1, d2))
        with (last (combine (x' :: xp) (y' :: fp)) (d1, d2)).
      rewrite IH by (simpl; lia). reflexivity.
Qed.

Lemma last_default (l : list Q) (d d' : Q) : l <> [] -> last l d = last l d'.
Proof.
  induction l as [| x l IH]; intros Hl; [congruence |].
  destruct l as [| y l]; [reflexivity |].
  change (last (y :: l) d = last (y :: l) d'). apply IH. discriminate.
Qed.

Lemma interp_search_cons2 (x x0 y0 x1 y1 : Q) (rest : list (Q * Q)) :
  interp_search x ((x0, y0) :: (x1, y1) :: rest) =
  if Qltb x x1 then
    if Qeq_bool x0 x then y0 else (y1 - y0) / (x1 - x0) * (x - x0) + y0
  else interp_search x ((x1, y1) :: rest).
Proof. reflexivity. Qed.

(** At a table node, the search returns the table value itself. *)
Lemma interp_search_node (xp fp : list Q) (j : nat) (x : Q) :
  StronglySorted Qlt xp -> length xp = length fp -> (j < length xp)%nat ->
  x == nth j xp 0 -> interp_search x (combine xp fp) = nth j fp 0.
Proof.
  revert fp j. induction xp as [| x0 xs IH]; intros fp j Hs Hl Hj Hx;
    simpl in Hj; [lia |].
  destruct fp as [| y0 ys]; simpl in Hl; [discriminate |].
  destruct xs as [| x1 xs'], ys as [| y1 ys']; simpl in Hl; try discriminate.
  - destruct j as [| j]; [reflexivity | simpl in Hj; lia].
  - pose proof Hs as Hs'. apply StronglySorted_inv in Hs' as [Hs' Hall].
    change (combine (x0 :: x1 :: xs') (y0 :: y1 :: ys'))
      with ((x0, y0) :: (x1, y1) :: combine xs' ys').
    rewrite interp_search_cons2.
    destruct j as [| j].
    + simpl in Hx. assert (Hlt : x < x1).
      { rewrite Hx. inversion Hall; assumption. }
      apply Qltb_iff in Hlt. rewrite Hlt.
      assert (Heq : Qeq_bool x0 x = true).
      { apply Qeq_bool_iff. symmetry. exact Hx. }
      rewrite Heq. reflexivity.
    + simpl in Hx. assert (Hge : x1 <= x).
      { rewrite Hx. apply sorted_head_le; [exact Hs' | simpl in Hj |- *; lia]. }
      apply Qltb_false_iff in Hge. rewrite Hge.
      change ((x1, y1) :: combine xs' ys') with (combine (x1 :: xs') (y1 :: ys')).
      change (nth (S j) (y0 :: y1 :: ys') 0) with (nth j (y1 :: ys') 0).
      apply IH; [exact Hs' | simpl; lia | simpl in Hj |- *; lia |].
      exact Hx.
Qed.

Lemma nth_map_lt {A B : Type} (f : A -> B) (l : list A) (i : nat) (d : B)
    (d' : A) :
  (i < length l)%nat -> nth i (map f l) d = f (nth i l d').
Proof.
  intros Hi. rewrite (nth_indep _ d (f d')) by (rewrite length_map; exact Hi).
  apply map_nth.
Qed.

Lemma np_interp_shape (xs xp fp ys : list Q) :
  np_interp xs xp fp = Some ys ->
  length xp = length fp /\ xp <> [] /\ length ys = length xs /\
  forall i, (i < length xs)%nat ->
    nth i ys 0 =
    interp_at (nth i xs 0) (combine xp fp)
      (nth 0 xp 0, nth 0 fp 0) (last xp 0, last fp 0).
Proof.
  unfold np_interp. destruct (Nat.eqb (length xp) (length fp)) eqn:El;
    simpl; [| discriminate].
  apply Nat.eqb_eq in El.
  destruct xp as [| x0 xp'], fp as [| y0 fp']; simpl in El; try discriminate.
  simpl combine. intros Hys. injection Hys as <-.
  split; [exact El | split; [discriminate | split]].
  - apply length_map.
  - intros i Hi.
    rewrite (nth_map_lt _ xs i 0 0 Hi).
    assert (Hlast : last (combine (x0 :: xp') (y0 :: fp')) (x0, y0) =
                    (last (x0 :: xp') 0, last (y0 :: fp') 0)).
    { rewrite last_combine by (simpl; lia).
      rewrite (last_default (x0 :: xp') x0 0) by discriminate.
      rewrite (last_default (y0 :: fp') y0 0) by discriminate.
      reflexivity. }
    rewrite <- Hlast. reflexivity.
Qed.

Lemma np_interp_some (xs xp fp : list Q) :
  length xp = length fp -> xp <> [] -> exists ys, np_interp xs xp fp = Some ys.
Proof.
  intros Hl Hne. unfold np_interp. rewrite Hl, Nat.eqb_refl. simpl.
  destruct xp as [| x0 xp'], fp as [| y0 fp']; simpl in Hl;
    try discriminate; try congruence.
  simpl. eauto.
Qed.

(** [np.interp] at a node of a strictly increasing table is the node's
    value. *)
Lemma np_interp_at_node (xs xp fp ys : list Q) (i j : nat) :
  StronglySorted Qlt xp -> np_interp xs xp fp = Some ys ->
  (i < length xs)%nat -> (j < length xp)%nat ->
  nth i xs 0 == nth j xp 0 -> nth i ys 0 = nth j fp 0.
Proof.
  intros Hs Hi Hlen Hj Hx.
  apply np_interp_shape in Hi as [Hl [Hne [_ Hnth]]].
  rewrite Hnth by exact Hlen. unfold interp_at. simpl fst. simpl snd.
  destruct xp as [| x0 xp']; [congruence |].
  assert (Hup : nth i xs 0 <= last (x0 :: xp') 0).
  { rewrite Hx. apply sorted_le_last; assumption. }
  assert (Hlo : nth 0 (x0 :: xp') 0 <= nth i xs 0).
  { rewrite Hx. apply sorted_head_le; [exact Hs | exact Hj]. }
  apply Qltb_false_iff in Hup. apply Qltb_false_iff in Hlo.
  rewrite Hup, Hlo. apply interp_search_node; assumption.
Qed.

(** [np.interp] beyond the last node is the last value. *)
Lemma np_interp_above (xs xp fp ys : list Q) (i : nat) :
  np_interp xs xp fp = Some ys -> (i < length xs)%nat ->
  last xp 0 < nth i xs 0 -> nth i ys 0 = last fp 0.
Proof.
  intros Hi Hlen Hx.
  apply np_interp_shape in Hi as [_ [_ [_ Hnth]]].
  rewrite Hnth by exact Hlen. unfold interp_at. simpl fst. simpl snd.
  apply Qltb_iff in Hx. rewrite Hx. reflexivity.
Qed.

Lemma sorted_scale_km (l : list Q) :
  StronglySorted Qlt l -> StronglySorted Qlt (map (fun a => a * km) l).
Proof.
  induction l as [| x l IH]; intros Hs; simpl; constructor.
  - apply IH. apply StronglySorted_inv in Hs as [Hs _]. exact Hs.
  - apply StronglySorted_inv in Hs as [_ Hall]. apply Forall_map.
    revert Hall. apply Forall_impl. intros y Hxy.
    apply Qmult_lt_r; [reflexivity | exact Hxy].
Qed.

Lemma nth_scale_km (l : list Q) (j : nat) :
  (j < length l)%nat -> nth j (map (fun a => a * km) l) 0 = nth j l 0 * km.
Proof.
  intros Hj. apply (nth_map_lt (fun a => a * km) l j 0 0 Hj).
Qed.

Lemma last_scale_km (l : list Q) :
  last (map (fun a => a * km) l) 0 = last l 0 * km.
Proof.
  induction l as [| x l IH]; [reflexivity |].
  destruct l as [| y l]; [reflexivity |]. exact IH.
Qed.

(** ** Profile resampling *)

(** C8: for a profile of at least two points with strictly increasing
    altitudes (and arrays of equal length), resampling succeeds; a sample
    altitude equal to a profile altitude gets that point's density and
    temperature, and a sample altitude above the profile's last altitude
    gets the last density and temperature. *)
Theorem resample_at_nodes_and_above :
  forall (data_day : DayProfile) (atmosphere_height : Q)
         (density_points : nat),
    (2 <= length (altitude data_day))%nat ->
    length (T data_day) = length (altitude data_day) ->
    length (density data_day) = length (altitude data_day) ->
    Sorted Qlt (altitude data_day) ->
    exists density' temp inter_height,
      parse_density_temp_from_config data_day atmosphere_height
        density_points = Some (density', temp, inter_height) /\
      length inter_height = density_points /\
      (forall i j, (i < density_points)%nat ->
         (j < length (altitude data_day))%nat ->
         nth i inter_height 0 == nth j (altitude data_day) 0 * km ->
         nth i density' 0 = nth j (density data_day) 0 /\
         nth i temp 0 = nth j (T data_day) 0) /\
      (forall i, (i < density_points)%nat ->
         last (altitude data_day) 0 * km < nth i inter_height 0 ->
         nth i density' 0 = last (density data_day) 0 /\
         nth i temp 0 = last (T data_day) 0).
Proof.
  intros day H N Hlen HT Hd Hsorted.
  apply Sorted_StronglySorted in Hsorted; [| exact Qlt_trans].
  set (height := map (fun a => a * km) (altitude day)).
  set (xs := linspace 0 H N).
  assert (Hh : length height = length (altitude day))
    by apply length_map.
  assert (Hne : height <> []).
  { intros E. rewrite E in Hh. simpl in Hh. lia. }
  assert (Hs : StronglySorted Qlt height) by apply sorted_scale_km, Hsorted.
  destruct (np_interp_some xs height (density day)) as [dens Hdens];
    [lia | exact Hne |].
  destruct (np_interp_some xs height (T day)) as [temp Htemp];
    [lia | exact Hne |].
  exists dens, temp, xs. split; [| split; [| split]].
  - unfold parse_density_temp_from_config. fold height xs.
    rewrite Hdens, Htemp. reflexivity.
  - apply length_linspace.
  - intros i j Hi Hj Hx.
    assert (Hi' : (i < length xs)%nat) by (subst xs; rewrite length_linspace; exact Hi).
    assert (Hj' : (j < length height)%nat) by lia.
    assert (Hxh : nth i xs 0 == nth j height 0)
      by (subst height; rewrite nth_scale_km by exact Hj; exact Hx).
    split.
    + apply (np_interp_at_node xs height (density day) dens i j); assumption.
    + apply (np_interp_at_node xs height (T day) temp i j); assumption.
  - intros i Hi Hx.
    assert (Hi' : (i < length xs)%nat) by (subst xs; rewrite length_linspace; exact Hi).
    assert (Hxl : last height 0 < nth i xs 0)
      by (subst height; rewrite last_scale_km; exact Hx).
    split.
    + apply (np_interp_above xs height (density day) dens i); assumption.
    + apply (np_interp_above xs height (T day) temp i); assumption.
Qed.

Lemma resample_at_nodes_and_above_witness :
  let day := {| altitude := [0; 70]; T := [300; 220];
                density := [12 # 10; 1 # 100] |} in
  ((2 <= length (altitude day))%nat /\
   length (T day) = length (altitude day) /\
   length (density day) = length (altitude day) /\
   Sorted Qlt (altitude day)) /\
  exists density' temp inter_height,
    parse_density_temp_from_config day (70 * km) 10
      = Some (density', temp, inter_height) /\
    length inter_height = 10%nat /\
    (forall i j, (i < 10)%nat -> (j < length (altitude day))%nat ->
       nth i inter_height 0 == nth j (altitude day) 0 * km ->
       nth i density' 0 = nth j (density day) 0 /\
       nth i temp 0 = nth j (T day) 0) /\
    (forall i, (i < 10)%nat ->
       last (altitude day) 0 * km < nth i inter_height 0 ->
       nth i density' 0 = last (density day) 0 /\
       nth i temp 0 = last (T day) 0).
Proof.
  intros day. split.
  - split; [simpl; lia | split; [reflexivity | split; [reflexivity |]]].
    repeat constructor.
  - apply resample_at_nodes_and_above; simpl; try lia; try reflexivity.
    repeat constructor.
Defined.

(** ** Per-layer magnetic field *)

Lemma nth_linspace (stop : Q) (num i : nat) :
  (i < num)%nat ->
  nth i (linspace 0 stop num) 0 ==
  match num with
  | 1%nat => 0
  | _ => Qnat i * stop / Qnat (num - 1)
  end.
Proof.
  intros Hi. destruct num as [| [| div]]; [lia | |].
  - destruct i as [| i]; [reflexivity | lia].
  - change (linspace 0 stop (S (S div))) with
      (map (fun i => Qnat i * ((stop - 0) / Qnat (S div)) + 0) (seq 0 (S div))
         ++ [stop]).
    replace (S (S div) - 1)%nat with (S div) by lia.
    assert (Hnz : ~ Qnat (S div) == 0) by (apply Qnat_nonzero; lia).
    destruct (Nat.lt_ge_cases i (S div)) as [Hlt | Hge].
    + rewrite app_nth1 by (rewrite length_map, length_seq; exact Hlt).
      rewrite (nth_map_lt _ _ i 0 0%nat) by (rewrite length_seq; exact Hlt).
      rewrite seq_nth by exact Hlt. simpl. field. exact Hnz.
    + assert (E : i = S div) by lia. subst i.
      rewrite app_nth2 by (rewrite length_map, length_seq; lia).
      rewrite length_map, length_seq, Nat.sub_diag. simpl nth.
      field. exact Hnz.
Qed.

Lemma nth_zip3 (xs ys zs : list Q) (i : nat) :
  length ys = length xs -> length zs = length xs -> (i < length xs)%nat ->
  nth i (zip3 xs ys zs) (0, 0, 0) = (nth i xs 0, nth i ys 0, nth i zs 0).
Proof.
  revert ys zs i. induction xs as [| x xs IH]; intros ys zs i Hy Hz Hi;
    simpl in Hi; [lia |].
  destruct ys as [| y ys], zs as [| z zs]; simpl in Hy, Hz; try lia.
  destruct i as [| i]; [reflexivity |]. simpl. apply IH; lia.
Qed.

Lemma length_zip3 (xs ys zs : list Q) :
  length ys = length xs -> length zs = length xs ->
  length (zip3 xs ys zs) = length xs.
Proof.
  revert ys zs. induction xs as [| x xs IH]; intros ys zs Hy Hz; [reflexivity |].
  destruct ys as [| y ys], zs as [| z zs]; simpl in Hy, Hz; try lia.
  simpl. rewrite IH; lia.
Qed.

Lemma np_interp_nth (xs xp fp ys : list Q) (i : nat) :
  np_interp xs xp fp = Some ys -> (i < length xs)%nat ->
  np_interp1 (nth i xs 0) xp fp = Some (nth i ys 0).
Proof.
  intros Hys Hi. pose proof Hys as Hys'.
  apply np_interp_shape in Hys' as [Hl [Hne [_ Hnth]]].
  rewrite Hnth by exact Hi.
  unfold np_interp1. destruct (np_interp_some [nth i xs 0] xp fp Hl Hne)
    as [v Hv].
  rewrite Hv. apply np_interp_shape in Hv as [_ [_ [Hlv Hv]]].
  destruct v as [| v0 v]; simpl in Hlv; [lia |].
  specialize (Hv 0%nat ltac:(simpl; lia)). simpl in Hv. rewrite Hv.
  reflexivity.
Qed.

Lemma last_nth_len (l : list Q) :
  l <> [] -> last l 0 = nth (length l - 1) l 0.
Proof.
  induction l as [| x l IH]; intros Hne; [congruence |].
  destruct l as [| y l]; [reflexivity |].
  change (last (y :: l) 0 = nth (length (y :: l)) (x :: y :: l) 0).
  rewrite IH by discriminate. simpl. rewrite Nat.sub_0_r. reflexivity.
Qed.

(** Inside an interval of a strictly increasing table, the search returns
    the linear interpolation of the interval's end values. *)
Lemma interp_search_seg (xp fp : list Q) (j : nat) (x : Q) :
  StronglySorted Qlt xp -> length xp = length fp -> (S j < length xp)%nat ->
  nth j xp 0 <= x < nth (S j) xp 0 ->
  interp_search x (combine xp fp) ==
  nth j fp 0 + (nth (S j) fp 0 - nth j fp 0)
               / (nth (S j) xp 0 - nth j xp 0) * (x - nth j xp 0).
Proof.
  revert fp j. induction xp as [| x0 xs IH]; intros fp j Hs Hl Hj Hx;
    simpl in Hj; [lia |].
  destruct fp as [| y0 ys]; simpl in Hl; [discriminate |].
  destruct xs as [| x1 xs'], ys as [| y1 ys']; simpl in Hl, Hj;
    try discriminate; try lia.
  pose proof Hs as Hs'. apply StronglySorted_inv in Hs' as [Hs' Hall].
  change (combine (x0 :: x1 :: xs') (y0 :: y1 :: ys'))
    with ((x0, y0) :: (x1, y1) :: combine xs' ys').
  rewrite interp_search_cons2.
  destruct j as [| j].
  - cbn [nth] in Hx |- *. destruct Hx as [Hx0 Hx1].
    apply Qltb_iff in Hx1. rewrite Hx1.
    destruct (Qeq_bool x0 x) eqn:Eq.
    + apply Qeq_bool_iff in Eq.
      assert (E0 : x - x0 == 0) by lra. rewrite E0. ring.
    + ring.
  - destruct Hx as [Hx0 Hx1].
    assert (Hge : x1 <= x).
    { apply Qle_trans with (nth j (x1 :: xs') 0); [| exact Hx0].
      apply sorted_head_le; [exact Hs' | simpl; lia]. }
    apply Qltb_false_iff in Hge. rewrite Hge.
    change ((x1, y1) :: combine xs' ys') with (combine (x1 :: xs') (y1 :: ys')).
    exact (IH (y1 :: ys') j Hs' ltac:(simpl; lia) ltac:(simpl; lia)
             (conj Hx0 Hx1)).
Qed.

(** On a strictly increasing table, [np.interp] is the clamped linear
    interpolation. *)
Lemma interp_at_clamped (x : Q) (xp fp : list Q) :
  StronglySorted Qlt xp -> length xp = length fp -> xp <> [] ->
  clamped_linear_interp x xp fp
    (interp_at x (combine xp fp) (nth 0 xp 0, nth 0 fp 0)
       (last xp 0, last fp 0)).
Proof.
  intros Hs Hl Hne. unfold interp_at. simpl fst. simpl snd.
  assert (Hlen : (0 < length xp)%nat) by (destruct xp; [congruence | simpl; lia]).
  assert (H0l : nth 0 xp 0 <= last xp 0)
    by (apply sorted_le_last; [exact Hs | exact Hlen]).
  assert (Hfne : fp <> []) by (intros ->; destruct xp; [congruence | discriminate]).
  split; [| split].
  - intros Hx. destruct (Qltb (last xp 0) x) eqn:E1.
    + apply Qltb_iff in E1. lra.
    + destruct (Qltb x (nth 0 xp 0)) eqn:E2; [reflexivity |].
      apply Qltb_false_iff in E2.
      rewrite (interp_search_node xp fp 0); [reflexivity | auto | auto | auto |].
      lra.
  - intros Hx. destruct (Qltb (last xp 0) x) eqn:E1; [reflexivity |].
    apply Qltb_false_iff in E1.
    destruct (Qltb x (nth 0 xp 0)) eqn:E2.
    + apply Qltb_iff in E2. lra.
    + rewrite (interp_search_node xp fp (length xp - 1)); [| auto | auto | lia |].
      * rewrite (last_nth_len fp Hfne), Hl. reflexivity.
      * rewrite <- (last_nth_len xp Hne). lra.
  - intros j Hj [Hxj Hxj1].
    assert (Hup : nth (S j) xp 0 <= last xp 0)
      by (apply sorted_le_last; [exact Hs | exact Hj]).
    assert (Hlo : nth 0 xp 0 <= nth j xp 0).
    { destruct xp as [| x0 l]; [congruence |].
      apply sorted_head_le; [exact Hs | simpl in Hj |- *; lia]. }
    destruct (Qltb (last xp 0) x) eqn:E1; [apply Qltb_iff in E1; lra |].
    destruct (Qltb x (nth 0 xp 0)) eqn:E2; [apply Qltb_iff in E2; lra |].
    apply interp_search_seg; auto.
Qed.

Lemma np_interp_clamped (xs xp fp ys : list Q) (i : nat) :
  StronglySorted Qlt xp -> np_interp xs xp fp = Some ys ->
  (i < length xs)%nat -> clamped_linear_interp (nth i xs 0) xp fp (nth i ys 0).
Proof.
  intros Hs Hys Hi. apply np_interp_shape in Hys as [Hl [Hne [_ Hnth]]].
  rewrite Hnth by exact Hi. apply interp_at_clamped; assumption.
Qed.

Lemma map_option_none {A B : Type} (f : A -> option B) (l : list A) :
  map_option f l = None -> exists k a, nth_error l k = Some a /\ f a = None.
Proof.
  induction l as [| a l IH]; simpl; [discriminate |].
  destruct (f a) as [b |] eqn:Ef.
  - destruct (map_option f l) eqn:Er; [discriminate |].
    intros _. destruct (IH eq_refl) as [k [a' [Hk Ha']]].
    exists (S k), a'. auto.
  - intros _. exists 0%nat, a. auto.
Qed.

(** C3 (as stated, refuted): the field of a layer is not the table at the
    layer's midpoint. Flat world of 70 km in 2 layers, table
    [x = altitude] (nT against km) from 0 to 70 km: layer 1 spans
    [0, 35 km] locally, i.e. real 35..70 km, with midpoint 52.5 km, but the
    code interpolates at [inter_heights[1] = 70 km]. *)
Lemma field_at_midpoint_counterexample :
  let rows := [{| row_x := 0; row_y := 0; row_z := 0; row_altitude := 0 |};
               {| row_x := 70; row_y := 0; row_z := 0; row_altitude := 70 |}] in
  let calc := fun (_ _ _ _ : Q) => @None GeoMagResult in
  match get_magnetic_field calc (FromFile rows) (linspace 0 (70 * km) 2),
        midpoint_field_file rows (construct_flat_layers (70 * km) 2) with
  | Some [_; (x1, _, _)], Some [_; (m1, _, _)] =>
      x1 == 70 * nT_to_T /\ m1 == (105 # 2) * nT_to_T /\ ~ (x1 == m1)
  | _, _ => False
  end.
Proof.
  vm_compute. split; [reflexivity | split; [reflexivity | discriminate]].
Qed.

(** C3 (amended): in both modes the field of layer [i] is evaluated at
    [inter_heights[i]], the [i]-th sample of
    [linspace(0, atmosphere_height, N)] (that is [i * atmosphere_height /
    (N - 1)], or 0 when [N = 1]), a real altitude. In model mode the
    geomagnetic model is queried at [(latitude, longitude,
    inter_heights[i] / km, decimal_year)] for every layer and its (x, y, -z)
    is scaled from nT to T; the call fails exactly when one of these queries
    raises. In file mode, for a table whose altitude column is strictly
    increasing, each component (nT to T) is the [np.interp] value against the
    altitude column (km to Geant4 units) at [inter_heights[i]], which is the
    linear interpolation between the two rows around it, held at the first
    or last row's value outside the table. One vector per layer. *)
Theorem field_sampled_at_inter_heights :
  forall (calculate : Q -> Q -> Q -> Q -> option GeoMagResult)
         (source : MagSource) (atmosphere_height : Q) (density_points : nat),
    (1 <= density_points)%nat ->
    match source with
    | FromFile rows => rows <> [] /\ Sorted Qlt (map row_altitude rows)
    | FromModel _ _ _ => True
    end ->
    let inter_heights := linspace 0 atmosphere_height density_points in
    (forall i, (i < density_points)%nat ->
       nth i inter_heights 0 ==
       match density_points with
       | 1%nat => 0
       | _ => Qnat i * atmosphere_height / Qnat (density_points - 1)
       end) /\
    match source with
    | FromModel latitude longitude decimal_year =>
        match get_magnetic_field calculate source inter_heights with
        | Some field =>
            length field = density_points /\
            forall i, (i < density_points)%nat ->
              exists r,
                calculate latitude longitude (nth i inter_heights 0 / km)
                  decimal_year = Some r /\
                nth i field (0, 0, 0) =
                  (gm_x r * nT_to_T, gm_y r * nT_to_T, - gm_z r * nT_to_T)
        | None =>
            exists i, (i < density_points)%nat /\
              calculate latitude longitude (nth i inter_heights 0 / km)
                decimal_year = None
        end
    | FromFile rows =>
        let alts := map (fun r => row_altitude r * km) rows in
        let xs := map (fun r => row_x r * nT_to_T) rows in
        let ys := map (fun r => row_y r * nT_to_T) rows in
        let zs := map (fun r => row_z r * nT_to_T) rows in
        exists field,
          get_magnetic_field calculate source inter_heights = Some field /\
          length field = density_points /\
          forall i, (i < density_points)%nat ->
            let s := nth i inter_heights 0 in
            exists vx vy vz,
              nth i field (0, 0, 0) = (vx, vy, vz) /\
              np_interp1 s alts xs = Some vx /\
              np_interp1 s alts ys = Some vy /\
              np_interp1 s alts zs = Some vz /\
              clamped_linear_interp s alts xs vx /\
              clamped_linear_interp s alts ys vy /\
              clamped_linear_interp s alts zs vz
    end.
Proof.
  intros calc source H N HN Hsrc ih.
  assert (Hih : length ih = N) by apply length_linspace.
  split; [intros i Hi; apply nth_linspace, Hi |].
  destruct source as [rows | lat lon year].
  - destruct Hsrc as [Hrows Hsorted].
    intros alts xs ys zs.
    assert (Hs : StronglySorted Qlt alts).
    { replace alts with (map (fun a => a * km) (map row_altitude rows))
        by (subst alts; rewrite map_map; reflexivity).
      apply sorted_scale_km, Sorted_StronglySorted; [exact Qlt_trans |].
      exact Hsorted. }
    assert (Hne : alts <> []).
    { subst alts. destruct rows; [contradiction | discriminate]. }
    destruct (np_interp_some ih alts xs) as [nx Hx];
      [subst alts xs; rewrite !length_map; reflexivity | exact Hne |].
    destruct (np_interp_some ih alts ys) as [ny Hy];
      [subst alts ys; rewrite !length_map; reflexivity | exact Hne |].
    destruct (np_interp_some ih alts zs) as [nz Hz];
      [subst alts zs; rewrite !length_map; reflexivity | exact Hne |].
    pose proof Hx as Lx. apply np_interp_shape in Lx as [_ [_ [Lx _]]].
    pose proof Hy as Ly. apply np_interp_shape in Ly as [_ [_ [Ly _]]].
    pose proof Hz as Lz. apply np_interp_shape in Lz as [_ [_ [Lz _]]].
    exists (zip3 nx ny nz). split; [| split].
    + simpl. fold alts xs ys zs. rewrite Hx, Hy, Hz. reflexivity.
    + rewrite length_zip3; lia.
    + intros i Hi s. exists (nth i nx 0), (nth i ny 0), (nth i nz 0).
      split; [apply nth_zip3; lia |].
      split; [apply np_interp_nth; [exact Hx | lia] |].
      split; [apply np_interp_nth; [exact Hy | lia] |].
      split; [apply np_interp_nth; [exact Hz | lia] |].
      split; [apply np_interp_clamped; [exact Hs | exact Hx | lia] |].
      split; [apply np_interp_clamped; [exact Hs | exact Hy | lia] |].
      apply np_interp_clamped; [exact Hs | exact Hz | lia].
  - destruct (get_magnetic_field calc (FromModel lat lon year) ih)
      as [field |] eqn:Hf.
    + simpl in Hf. apply map_option_nth in Hf as [Hlen Hnth].
      split; [lia |]. intros i Hi.
      destruct (Hnth i (nth i ih 0)) as [b [Hb Hbi]];
        [apply nth_error_nth'; lia |].
      destruct (calc lat lon (nth i ih 0 / km) year) as [r |] eqn:Hr;
        [| discriminate].
      exists r. split; [reflexivity |].
      apply (nth_error_nth field i (0, 0, 0)) in Hbi. rewrite Hbi.
      injection Hb as <-. reflexivity.
    + simpl in Hf. apply map_option_none in Hf as [k [h [Hk Hh]]].
      exists k. assert (Hk2 : nth_error ih k <> None) by congruence.
      apply nth_error_Some in Hk2. split; [lia |].
      apply (nth_error_nth ih k 0) in Hk. rewrite Hk.
      destruct (calc lat lon (h / km) year); [discriminate | reflexivity].
Qed.

Lemma field_sampled_at_inter_heights_witness :
  let calc := fun (_ _ a year : Q) =>
    if Qle_bool year 2025 then Some {| gm_x := a; gm_y := 0; gm_z := 1 |}
    else None in
  let rows := [{| row_x := 0; row_y := 1; row_z := 2; row_altitude := 0 |};
               {| row_x := 70; row_y := 1; row_z := 0; row_altitude := 70 |}] in
  ((1 <= 10)%nat /\ True) /\
  ((1 <= 10)%nat /\ rows <> [] /\ Sorted Qlt (map row_altitude rows)) /\
  (let inter_heights := linspace 0 (70 * km) 10 in
   (forall i, (i < 10)%nat ->
      nth i inter_heights 0 == Qnat i * (70 * km) / Qnat (10 - 1)) /\
   match get_magnetic_field calc (FromModel (42224 # 1000) (-8716 # 1000) 2021)
           inter_heights with
   | Some field =>
       length field = 10%nat /\
       forall i, (i < 10)%nat ->
         exists r,
           calc (42224 # 1000) (-8716 # 1000) (nth i inter_heights 0 / km)
             2021 = Some r /\
           nth i field (0, 0, 0) =
             (gm_x r * nT_to_T, gm_y r * nT_to_T, - gm_z r * nT_to_T)
   | None =>
       exists i, (i < 10)%nat /\
         calc (42224 # 1000) (-8716 # 1000) (nth i inter_heights 0 / km)
           2021 = None
   end) /\
  (let inter_heights := linspace 0 (70 * km) 10 in
   let alts := map (fun r => row_altitude r * km) rows in
   let xs := map (fun r => row_x r * nT_to_T) rows in
   let ys := map (fun r => row_y r * nT_to_T) rows in
   let zs := map (fun r => row_z r * nT_to_T) rows in
   exists field,
     get_magnetic_field calc (FromFile rows) inter_heights = Some field /\
     length field = 10%nat /\
     forall i, (i < 10)%nat ->
       let s := nth i inter_heights 0 in
       exists vx vy vz,
         nth i field (0, 0, 0) = (vx, vy, vz) /\
         np_interp1 s alts xs = Some vx /\
         np_interp1 s alts ys = Some vy /\
         np_interp1 s alts zs = Some vz /\
         clamped_linear_interp s alts xs vx /\
         clamped_linear_interp s alts ys vy /\
         clamped_linear_interp s alts zs vz).
Proof.
  intros calc rows.
  assert (Hrows : rows <> [] /\ Sorted Qlt (map row_altitude rows)).
  { split; [discriminate |].
    repeat constructor. }
  split; [split; [lia | exact I] |].
  split; [split; [lia | exact Hrows] |].
  split.
  - apply (field_sampled_at_inter_heights calc
             (FromModel (42224 # 1000) (-8716 # 1000) 2021) (70 * km) 10);
      [lia | exact I].
  - apply (field_sampled_at_inter_heights calc (FromFile rows) (70 * km) 10);
      [lia | exact Hrows].
Defined.

(** ** Layer lookup and layer solids *)

(** Linear arithmetic over Q after division by numerals is written as
    multiplication. *)
Ltac qinv_consts :=
  unfold Qdiv in *;
  repeat match goal with
         | |- context [Qinv (Z.pos ?p # 1)] =>
             change (Qinv (Z.pos p # 1)) with (1 # p)
         | Hq : context [Qinv (Z.pos ?p # 1)] |- _ =>
             change (Qinv (Z.pos p # 1)) with (1 # p) in Hq
         end.

Ltac qlra := qinv_consts; lra.

Lemma Qnat_le (m n : nat) : (m <= n)%nat -> Qnat m <= Qnat n.
Proof. intros Hmn. unfold Qnat, Qle. simpl. lia. Qed.

Lemma Qnat_nonneg (n : nat) : 0 <= Qnat n.
Proof. unfold Qnat, Qle. simpl. lia. Qed.

Lemma layer_test_iff (lo hi alt : Q) :
  Qle_bool lo alt && Qle_bool alt hi = true <-> lo <= alt <= hi.
Proof.
  rewrite andb_true_iff, !Qle_bool_iff. reflexivity.
Qed.

Lemma find_layer_from_spec (alt : Q) (limits : list (Q * Q)) (j : nat) :
  (exists k lo hi,
      nth_error limits k = Some (lo, hi) /\ lo <= alt <= hi /\
      find_layer_from j alt limits = (j + k)%nat /\
      forall k' lo' hi', (k' < k)%nat -> nth_error limits k' = Some (lo', hi') ->
        ~ (lo' <= alt <= hi')) \/
  (find_layer_from j alt limits = 0%nat /\
   forall k lo hi, nth_error limits k = Some (lo, hi) -> ~ (lo <= alt <= hi)).
Proof.
  revert j. induction limits as [| [lo hi] rest IH]; intros j; simpl.
  - right. split; [reflexivity |]. intros [|k] lo hi Hk; discriminate.
  - destruct (Qle_bool lo alt && Qle_bool alt hi) eqn:Etest.
    + left. apply layer_test_iff in Etest. exists 0%nat, lo, hi.
      repeat split; try apply Etest; [lia |]. intros k' lo' hi' Hk'. lia.
    + assert (Hnot : ~ (lo <= alt <= hi)).
      { intros Hin. apply layer_test_iff in Hin. congruence. }
      destruct (IH (S j)) as [[k [lo' [hi' [Hk [Hin [Hf Hbefore]]]]]] |
                               [Hf Hnone]].
      * left. exists (S k), lo', hi'. repeat split; try apply Hin; auto.
        -- rewrite Hf. lia.
        -- intros [| k''] lo'' hi'' Hlt Hk''; simpl in Hk''.
           ++ injection Hk'' as <- <-. exact Hnot.
           ++ apply (Hbefore k''); [lia | exact Hk''].
      * right. split; [exact Hf |].
        intros [| k] lo'' hi'' Hk; simpl in Hk.
        -- injection Hk as <- <-. exact Hnot.
        -- apply (Hnone k), Hk.
Qed.

(** Contiguous layers [map f (seq s n)] cover everything between the lower
    bound of the first one and the upper bound of the last one. *)
Lemma map_seq_cover (f : nat -> Q * Q) (s n : nat) (x : Q) :
  (forall i, snd (f i) == fst (f (S i))) -> (1 <= n)%nat ->
  fst (f s) <= x -> x <= snd (f (s + n - 1)%nat) ->
  exists k lo hi, nth_error (map f (seq s n)) k = Some (lo, hi) /\
                  lo <= x <= hi.
Proof.
  intros Hf. revert s. induction n as [| n IH]; intros s Hn Hlo Hhi; [lia |].
  destruct (Qlt_le_dec (snd (f s)) x) as [Hgt | Hle].
  - destruct n as [| n].
    + replace (s + 1 - 1)%nat with s in Hhi by lia.
      exfalso. apply (Qlt_not_le _ _ Hgt Hhi).
    + destruct (IH (S s)) as [k [lo [hi [Hk Hin]]]]; [lia | | |].
      * rewrite <- (Hf s). apply Qlt_le_weak, Hgt.
      * replace (S s + S n - 1)%nat with (s + S (S n) - 1)%nat by lia.
        exact Hhi.
      * exists (S k), lo, hi. split; [exact Hk | exact Hin].
  - exists 0%nat, (fst (f s)), (snd (f s)). simpl.
    destruct (f s) as [a b]. simpl in *. auto.
Qed.

(** X1: [find_layer] returns the first layer that contains the altitude:
    when some layer [j] contains [alt], the returned layer contains it too,
    its index is at most [j], and no layer before it contains [alt]. *)
Theorem find_layer_first_match (alt : Q) (limits : list (Q * Q)) (j : nat)
    (lo hi : Q) :
  nth_error limits j = Some (lo, hi) -> lo <= alt <= hi ->
  exists lo' hi',
    nth_error limits (find_layer alt limits) = Some (lo', hi') /\
    lo' <= alt <= hi' /\ (find_layer alt limits <= j)%nat /\
    forall k lo'' hi'', (k < find_layer alt limits)%nat ->
      nth_error limits k = Some (lo'', hi'') -> ~ (lo'' <= alt <= hi'').
Proof.
  intros Hj Hin. unfold find_layer.
  destruct (find_layer_from_spec alt limits 0)
    as [[k [lo' [hi' [Hk [Hin' [Hf Hbefore]]]]]] | [_ Hnone]].
  - rewrite Hf. simpl. exists lo', hi'. repeat split; try apply Hin'; auto.
    destruct (Nat.lt_ge_cases j k) as [Hlt | Hge]; [| exact Hge].
    exfalso. apply (Hbefore j lo hi Hlt Hj Hin).
  - exfalso. apply (Hnone j lo hi Hj Hin).
Qed.

Lemma find_layer_first_match_witness :
  let limits := altitude_limits (construct_flat_layers (70 * km) 10) in
  let alt := - (28 * km) in
  exists lo' hi',
    nth_error limits (find_layer alt limits) = Some (lo', hi') /\
    lo' <= alt <= hi' /\ (find_layer alt limits <= 1)%nat /\
    forall k lo'' hi'', (k < find_layer alt limits)%nat ->
      nth_error limits k = Some (lo'', hi'') -> ~ (lo'' <= alt <= hi'').
Proof.
  intros limits alt.
  apply (find_layer_first_match alt limits 1
           (fst (flat_layer_limit (70 * km) 10 (- (70 * km) / 2) 1))
           (snd (flat_layer_limit (70 * km) 10 (- (70 * km) / 2) 1))).
  - reflexivity.
  - split; vm_compute; intros Hc; discriminate Hc.
Defined.

Lemma find_layer_contains (alt : Q) (limits : list (Q * Q)) :
  (exists k lo hi, nth_error limits k = Some (lo, hi) /\ lo <= alt <= hi) ->
  exists lo hi, nth_error limits (find_layer alt limits) = Some (lo, hi) /\
                lo <= alt <= hi.
Proof.
  intros [k [lo [hi [Hk Hin]]]]. unfold find_layer.
  destruct (find_layer_from_spec alt limits 0)
    as [[k' [lo' [hi' [Hk' [Hin' [Hf _]]]]]] | [_ Hnone]].
  - rewrite Hf. exists lo', hi'. auto.
  - exfalso. apply (Hnone k lo hi Hk Hin).
Qed.

Lemma flat_layer_limit_first (H : Q) (N : nat) :
  fst (flat_layer_limit H N (- H / 2) 0) == - H / 2.
Proof. unfold flat_layer_limit, Qnat. cbn [fst Z.of_nat]. unfold Qdiv. ring. Qed.

Lemma flat_layer_limit_last (H : Q) (N : nat) :
  (1 <= N)%nat -> snd (flat_layer_limit H N (- H / 2) (N - 1)) == H / 2.
Proof.
  intros HN. pose proof (Qnat_nonzero N HN) as HN0.
  destruct N as [| N']; [lia |]. replace (S N' - 1)%nat with N' by lia.
  unfold flat_layer_limit. simpl. rewrite Qnat_succ in *. field. exact HN0.
Qed.

Lemma spherical_layer_limit_last (R H : Q) (N : nat) :
  (1 <= N)%nat -> snd (spherical_layer_limit H N R (N - 1)) == R + H.
Proof.
  intros HN. pose proof (Qnat_nonzero N HN) as HN0.
  destruct N as [| N']; [lia |]. replace (S N' - 1)%nat with N' by lia.
  unfold spherical_layer_limit. cbn [snd]. field. exact HN0.
Qed.

(** X2: every real altitude in [[0, atmosphere_height]] lies in the layer
    the detector loop looks up for it ([detectors_alt = altitude * km +
    correction_factor]), in the flat and in the curved world: the layers
    leave no gap, and inside the atmosphere the default layer 0 is never
    taken by mistake. *)
Theorem detector_altitude_in_found_layer (earth_radius H : Q) (N : nat)
    (a : Q) :
  (1 <= N)%nat -> 0 <= a * km <= H ->
  (let w := construct_flat_layers H N in
   let x := a * km + correction_factor w in
   exists lo hi, nth_error (altitude_limits w) (find_layer x (altitude_limits w))
                   = Some (lo, hi) /\ lo <= x <= hi) /\
  (let w := construct_spherical_layers earth_radius H N in
   let x := a * km + correction_factor w in
   exists lo hi, nth_error (altitude_limits w) (find_layer x (altitude_limits w))
                   = Some (lo, hi) /\ lo <= x <= hi).
Proof.
  intros HN [Ha0 HaH]. split; intros w x; apply find_layer_contains;
    subst w x.
  - unfold construct_flat_layers. cbn [altitude_limits correction_factor].
    apply map_seq_cover.
    + intros i. apply flat_layer_limit_next, HN.
    + exact HN.
    + rewrite flat_layer_limit_first. qlra.
    + rewrite Nat.add_0_l, flat_layer_limit_last by exact HN. qlra.
  - unfold construct_spherical_layers.
    cbn [altitude_limits correction_factor].
    apply map_seq_cover.
    + intros i. apply spherical_layer_limit_next.
    + exact HN.
    + unfold spherical_layer_limit, Qnat. cbn [fst Z.of_nat].
      assert (E : inject_Z 0 * H / inject_Z (Z.of_nat N) == 0)
        by (unfold Qdiv; ring).
      rewrite E. qlra.
    + rewrite Nat.add_0_l, spherical_layer_limit_last by exact HN. qlra.
Qed.

Lemma detector_altitude_in_found_layer_witness :
  ((1 <= 10)%nat /\ 0 <= 70 * km <= 70 * km) /\
  (let w := construct_flat_layers (70 * km) 10 in
   let x := 70 * km + correction_factor w in
   exists lo hi, nth_error (altitude_limits w) (find_layer x (altitude_limits w))
                   = Some (lo, hi) /\ lo <= x <= hi) /\
  (let w := construct_spherical_layers 6371 (70 * km) 10 in
   let x := 70 * km + correction_factor w in
   exists lo hi, nth_error (altitude_limits w) (find_layer x (altitude_limits w))
                   = Some (lo, hi) /\ lo <= x <= hi).
Proof.
  split.
  - split; [lia | split; vm_compute; intros Hc; discriminate Hc].
  - apply (detector_altitude_in_found_layer 6371 (70 * km) 10 70).
    + lia.
    + split; vm_compute; intros Hc; discriminate Hc.
Defined.

(** X3: in the flat world with [atmosphere_height > 0], the [G4Box] of
    layer [i] (half height [box_height], placed at
    [i * H / N + box_height + correction_factor]) spans exactly
    [altitude_limits[i]], which has positive thickness and lies inside the
    world box of half height [H / 2] centred at 0. *)
Theorem flat_layer_box_in_world (H : Q) (N i : nat) :
  0 < H -> (i < N)%nat ->
  let w := construct_flat_layers H N in
  let box_height := H / Qnat N / 2 in
  let center := flat_layer_center H N (correction_factor w) i in
  exists lo hi,
    nth_error (altitude_limits w) i = Some (lo, hi) /\
    lo == center - box_height /\ hi == center + box_height /\
    - (H / 2) <= lo /\ lo < hi /\ hi <= H / 2.
Proof.
  intros HH Hi w box_height center.
  assert (HN : (1 <= N)%nat) by lia.
  pose proof (Qnat_nonzero N HN) as HN0.
  assert (HNpos : 0 < Qnat N).
  { unfold Qnat, Qlt. simpl. lia. }
  set (t := H / Qnat N).
  assert (Ht : 0 < t).
  { unfold t, Qdiv. apply Qmult_lt_0_compat; [exact HH | apply Qinv_lt_0_compat, HNpos]. }
  assert (HNt : Qnat N * t == H) by (unfold t; field; exact HN0).
  assert (Hit : Qnat i * H / Qnat N == Qnat i * t) by (unfold t; field; exact HN0).
  assert (Hi0 : 0 <= Qnat i * t).
  { apply Qmult_le_0_compat; [apply Qnat_nonneg | apply Qlt_le_weak, Ht]. }
  assert (HiN : (Qnat i + 1) * t <= Qnat N * t).
  { apply Qmult_le_compat_r; [| apply Qlt_le_weak, Ht].
    rewrite <- Qnat_succ. apply Qnat_le. lia. }
  exists (fst (flat_layer_limit H N (- H / 2) i)),
         (snd (flat_layer_limit H N (- H / 2) i)).
  split.
  - subst w. simpl. rewrite nth_error_map_seq by exact Hi. reflexivity.
  - subst center box_height w. unfold flat_layer_center, flat_layer_limit.
    simpl. fold t. rewrite Hit. repeat split; qlra.
Qed.

Lemma flat_layer_box_in_world_witness :
  (0 < 70 * km /\ (3 < 10)%nat) /\
  let w := construct_flat_layers (70 * km) 10 in
  let box_height := 70 * km / Qnat 10 / 2 in
  let center := flat_layer_center (70 * km) 10 (correction_factor w) 3 in
  exists lo hi,
    nth_error (altitude_limits w) 3 = Some (lo, hi) /\
    lo == center - box_height /\ hi == center + box_height /\
    - (70 * km / 2) <= lo /\ lo < hi /\ hi <= 70 * km / 2.
Proof.
  split; [split; [reflexivity | lia] |].
  apply (flat_layer_box_in_world (70 * km) 10 3); [reflexivity | lia].
Defined.

(** X4: in the curved world with [atmosphere_height > 0], the shell of
    layer [i] ([G4Sphere] from [altitude_limits[i][0]] to
    [altitude_limits[i][1]]) has positive thickness and lies inside the
    world sphere from [earth_rad] to [earth_rad + atmosphere_height]. *)
Theorem spherical_layer_in_world (earth_radius H : Q) (N i : nat) :
  0 < H -> (i < N)%nat ->
  let w := construct_spherical_layers earth_radius H N in
  exists lo hi,
    nth_error (altitude_limits w) i = Some (lo, hi) /\
    correction_factor w <= lo /\ lo < hi /\ hi <= correction_factor w + H.
Proof.
  intros HH Hi w.
  assert (HN : (1 <= N)%nat) by lia.
  pose proof (Qnat_nonzero N HN) as HN0.
  assert (HNpos : 0 < Qnat N).
  { unfold Qnat, Qlt. simpl. lia. }
  set (t := H / Qnat N).
  assert (Ht : 0 < t).
  { unfold t, Qdiv. apply Qmult_lt_0_compat; [exact HH | apply Qinv_lt_0_compat, HNpos]. }
  assert (HNt : Qnat N * t == H) by (unfold t; field; exact HN0).
  assert (Hit : forall k, Qnat k * H / Qnat N == Qnat k * t)
    by (intros k; unfold t; field; exact HN0).
  assert (Hi0 : 0 <= Qnat i * t).
  { apply Qmult_le_0_compat; [apply Qnat_nonneg | apply Qlt_le_weak, Ht]. }
  assert (HiN : Qnat (S i) * t <= Qnat N * t).
  { apply Qmult_le_compat_r; [apply Qnat_le; lia | apply Qlt_le_weak, Ht]. }
  assert (Hsucc : Qnat (S i) * t == Qnat i * t + t)
    by (rewrite Qnat_succ; ring).
  exists (fst (spherical_layer_limit H N (earth_radius * km) i)),
         (snd (spherical_layer_limit H N (earth_radius * km) i)).
  split.
  - subst w. simpl. rewrite nth_error_map_seq by exact Hi. reflexivity.
  - subst w. unfold spherical_layer_limit. simpl. rewrite !Hit.
    repeat split; qlra.
Qed.

Lemma spherical_layer_in_world_witness :
  (0 < 70 * km /\ (9 < 10)%nat) /\
  let w := construct_spherical_layers 6371 (70 * km) 10 in
  exists lo hi,
    nth_error (altitude_limits w) 9 = Some (lo, hi) /\
    correction_factor w <= lo /\ lo < hi /\
    hi <= correction_factor w + 70 * km.
Proof.
  split; [split; [reflexivity | lia] |].
  apply (spherical_layer_in_world 6371 (70 * km) 10 9); [reflexivity | lia].
Defined.

(** ** Sample grid and interpolation bounds *)

Lemma sorted_map_seq_app (g : nat -> Q) (z : Q) (s n : nat) :
  (forall i, g i < g (S i)) -> ((1 <= n)%nat -> g (s + n - 1)%nat < z) ->
  Sorted Qlt (map g (seq s n) ++ [z]).
Proof.
  intros Hg. revert s. induction n as [| n IH]; intros s Hz; simpl.
  - repeat constructor.
  - constructor.
    + apply IH. intros Hn. replace (S s + n - 1)%nat with (s + S n - 1)%nat
        by lia. apply Hz. lia.
    + destruct n as [| n]; simpl; constructor.
      * replace s with (s + 1 - 1)%nat at 1 by lia. apply Hz. lia.
      * apply Hg.
Qed.

(** X5: [inter_heights = np.linspace(0, atmosphere_height, N)], the grid at
    which the profile is resampled, has exactly [N] samples for every [N];
    for [N = 1] it is [[0]]; for [N >= 1] it starts at 0, for [N >= 2] it
    ends exactly at [atmosphere_height], and for [atmosphere_height > 0] it
    is strictly increasing. *)
Theorem inter_heights_grid (H : Q) (N : nat) :
  let xs := linspace 0 H N in
  length xs = N /\
  (N = 1%nat -> xs = [0]) /\
  ((1 <= N)%nat -> nth 0 xs 0 == 0) /\
  ((2 <= N)%nat -> nth (N - 1) xs 0 = H) /\
  (0 < H -> Sorted Qlt xs).
Proof.
  intros xs.
  split; [apply length_linspace |].
  destruct N as [| [| d]].
  - split; [discriminate |]. split; [lia |]. split; [lia |].
    intros _. constructor.
  - split; [reflexivity |]. split; [reflexivity |]. split; [lia |].
    intros _. repeat constructor.
  - assert (Hd0 : ~ Qnat (S d) == 0) by (apply Qnat_nonzero; lia).
    assert (Hdpos : 0 < Qnat (S d)) by (unfold Qnat, Qlt; simpl; lia).
    assert (Hxs : xs = map (fun i => Qnat i * ((H - 0) / Qnat (S d)) + 0)
                           (seq 0 (S d)) ++ [H]) by reflexivity.
    set (step := (H - 0) / Qnat (S d)) in Hxs.
    assert (Htot : Qnat (S d) * step == H) by (unfold step; field; exact Hd0).
    split; [discriminate |]. split; [| split].
    + intros _. rewrite Hxs. simpl. unfold Qnat. simpl. ring.
    + intros _. rewrite Hxs.
      replace (S (S d) - 1)%nat
        with (length (map (fun i => Qnat i * step + 0) (seq 0 (S d))))
        by (rewrite length_map, length_seq; lia).
      rewrite app_nth2 by lia. rewrite Nat.sub_diag. reflexivity.
    + intros HH.
      assert (Hstep : 0 < step).
      { unfold step, Qdiv. apply Qmult_lt_0_compat; [qlra |].
        apply Qinv_lt_0_compat, Hdpos. }
      rewrite Hxs. apply sorted_map_seq_app.
      * intros i. rewrite Qnat_succ. qlra.
      * intros _. replace (0 + S d - 1)%nat with d by lia.
        rewrite Qnat_succ in Htot.
        assert (E : (Qnat d + 1) * step == Qnat d * step + step) by ring.
        qlra.
Qed.

Lemma inter_heights_grid_witness :
  0 < 70 * km /\
  let xs := linspace 0 (70 * km) 10 in
  length xs = 10%nat /\
  (10%nat = 1%nat -> xs = [0]) /\
  ((1 <= 10)%nat -> nth 0 xs 0 == 0) /\
  ((2 <= 10)%nat -> nth (10 - 1) xs 0 = 70 * km) /\
  (0 < 70 * km -> Sorted Qlt xs).
Proof.
  split; [reflexivity |].
  apply (inter_heights_grid (70 * km) 10).
Defined.

Lemma last_in (l : list Q) (d : Q) : l <> [] -> In (last l d) l.
Proof.
  induction l as [| x l IH]; intros Hne; [congruence |].
  destruct l as [| y l]; [left; reflexivity |].
  right. apply IH. discriminate.
Qed.

Lemma interp_search_bounds (xp fp : list Q) (x lo hi : Q) :
  StronglySorted Qlt xp -> length xp = length fp -> xp <> [] ->
  Forall (fun y => lo <= y <= hi) fp -> nth 0 xp 0 <= x ->
  lo <= interp_search x (combine xp fp) <= hi.
Proof.
  revert fp. induction xp as [| x0 xs IH]; intros fp Hs Hl Hne Hb Hx;
    [congruence |].
  destruct fp as [| y0 ys]; simpl in Hl; [discriminate |].
  inversion Hb as [| ? ? Hy0 Hb']; subst.
  destruct xs as [| x1 xs'], ys as [| y1 ys']; simpl in Hl; try discriminate.
  - exact Hy0.
  - pose proof Hs as Hs'. apply StronglySorted_inv in Hs' as [Hs' Hall].
    assert (Hx01 : x0 < x1) by (inversion Hall; assumption).
    inversion Hb' as [| ? ? Hy1 _]; subst.
    change (combine (x0 :: x1 :: xs') (y0 :: y1 :: ys'))
      with ((x0, y0) :: (x1, y1) :: combine xs' ys').
    rewrite interp_search_cons2.
    simpl in Hx.
    destruct (Qltb x x1) eqn:Ex1.
    + apply Qltb_iff in Ex1.
      destruct (Qeq_bool x0 x); [exact Hy0 |].
      set (t := (x - x0) / (x1 - x0)).
      assert (Ht0 : 0 <= t) by (apply Qle_shift_div_l; lra).
      assert (Ht1 : t <= 1) by (apply Qle_shift_div_r; lra).
      assert (Ev : (y1 - y0) / (x1 - x0) * (x - x0) + y0
                   == (1 - t) * y0 + t * y1).
      { unfold t. field. intros Hc. lra. }
      rewrite Ev. clearbody t. split; nra.
    + apply Qltb_false_iff in Ex1.
      change ((x1, y1) :: combine xs' ys') with (combine (x1 :: xs') (y1 :: ys')).
      apply IH; [exact Hs' | simpl; lia | discriminate | exact Hb' | exact Ex1].
Qed.

(** Every value [np.interp] returns on a strictly increasing table lies in
    any bounds of the table's values. *)
Lemma np_interp_bounds (xs xp fp ys : list Q) (lo hi : Q) :
  StronglySorted Qlt xp -> np_interp xs xp fp = Some ys ->
  Forall (fun y => lo <= y <= hi) fp -> Forall (fun y => lo <= y <= hi) ys.
Proof.
  intros Hs Hi Hb.
  apply np_interp_shape in Hi as [Hl [Hne [Hlen Hnth]]].
  assert (Hfne : fp <> []).
  { intros ->. destruct xp; [congruence | discriminate]. }
  apply Forall_forall. intros y Hy.
  apply (In_nth ys y 0) in Hy as [i [Hi <-]].
  rewrite Hnth by lia. unfold interp_at. simpl fst. simpl snd.
  rewrite Forall_forall in Hb.
  destruct (Qltb (last xp 0) (nth i xs 0)).
  - apply Hb, last_in, Hfne.
  - destruct (Qltb (nth i xs 0) (nth 0 xp 0)) eqn:E0.
    + apply Hb, nth_In. destruct fp; [congruence | simpl; lia].
    + apply Qltb_false_iff in E0. apply interp_search_bounds; auto.
      apply Forall_forall, Hb.
Qed.

(** X6: on a strictly increasing altitude column, every resampled density
    and temperature of [parse_density_temp_from_config] lies within any
    bounds of the profile's own values: [np.interp] never extrapolates. *)
Theorem resampled_profile_within_bounds (data_day : DayProfile)
    (H : Q) (N : nat) (density' temp inter_height : list Q)
    (lo_d hi_d lo_T hi_T : Q) :
  Sorted Qlt (altitude data_day) ->
  parse_density_temp_from_config data_day H N
    = Some (density', temp, inter_height) ->
  Forall (fun y => lo_d <= y <= hi_d) (density data_day) ->
  Forall (fun y => lo_T <= y <= hi_T) (T data_day) ->
  Forall (fun y => lo_d <= y <= hi_d) density' /\
  Forall (fun y => lo_T <= y <= hi_T) temp.
Proof.
  intros Hs Hp Hd HT.
  assert (Hs' : StronglySorted Qlt (map (fun a => a * km) (altitude data_day))).
  { apply sorted_scale_km, Sorted_StronglySorted; [exact Qlt_trans | exact Hs]. }
  unfold parse_density_temp_from_config in Hp.
  destruct (np_interp _ _ (density data_day)) as [d' |] eqn:E1;
    [| discriminate].
  destruct (np_interp _ _ (T data_day)) as [t' |] eqn:E2; [| discriminate].
  injection Hp as <- <- _.
  split; eapply np_interp_bounds; eauto.
Qed.

Lemma resampled_profile_within_bounds_witness :
  let day := {| altitude := [0; 10; 70]; T := [300; 220; 260];
                density := [12 # 10; 4 # 10; 1 # 100] |} in
  (Sorted Qlt (altitude day) /\
   Forall (fun y => 1 # 100 <= y <= 12 # 10) (density day) /\
   Forall (fun y => 220 <= y <= 300) (T day)) /\
  exists density' temp inter_height,
    parse_density_temp_from_config day (70 * km) 10
      = Some (density', temp, inter_height) /\
    Forall (fun y => 1 # 100 <= y <= 12 # 10) density' /\
    Forall (fun y => 220 <= y <= 300) temp.
Proof.
  intros day.
  assert (Hs : Sorted Qlt (altitude day)).
  { repeat constructor. }
  assert (Hd : Forall (fun y => 1 # 100 <= y <= 12 # 10) (density day)).
  { repeat constructor; vm_compute; intros Hc; discriminate Hc. }
  assert (HT : Forall (fun y => 220 <= y <= 300) (T day)).
  { repeat constructor; vm_compute; intros Hc; discriminate Hc. }
  split; [auto |].
  destruct (parse_density_temp_from_config day (70 * km) 10)
    as [[[d t] ih] |] eqn:Hp.
  - exists d, t, ih. split; [reflexivity |].
    apply (resampled_profile_within_bounds day (70 * km) 10 d t ih
             _ _ _ _ Hs Hp Hd HT).
  - vm_compute in Hp. discriminate Hp.
Defined.

(** ** Detectors of a validated configuration *)

Lemma validate_sensitive_detectors_nonneg (altitude' : list Q)
    (particles : list string) :
  validate_sensitive_detectors true altitude' particles = true ->
  Forall (fun a => 0 <= a) altitude'.
Proof.
  unfold validate_sensitive_detectors. intros Hv.
  apply andb_prop in Hv as [Hv _]. apply andb_prop in Hv as [_ Hv].
  apply Forall_forall. intros a Ha. rewrite forallb_forall in Hv.
  apply Qle_bool_iff, Hv, Ha.
Qed.

Lemma map_option_Forall_in {A B : Type} (f : A -> option B) (P : A -> Prop)
    (R : B -> Prop) (l : list A) (bs : list B) :
  Forall P l -> (forall a b, P a -> f a = Some b -> R b) ->
  map_option f l = Some bs -> Forall R bs.
Proof.
  intros HP Hf. revert bs. induction HP as [| a l Ha HP IH]; intros bs Hm;
    simpl in Hm.
  - injection Hm as <-. constructor.
  - destruct (f a) as [b |] eqn:Ef; [| discriminate].
    destruct (map_option f l) as [bs' |] eqn:Er; [| discriminate].
    injection Hm as <-. constructor; [apply (Hf a b Ha Ef) | apply IH; reflexivity].
Qed.

Lemma find_layer_lower (f : nat -> Q * Q) (N : nat) (alt lo hi : Q) :
  nth_error (map f (seq 0 N)) (find_layer alt (map f (seq 0 N)))
    = Some (lo, hi) ->
  fst (f 0%nat) <= alt -> lo <= alt.
Proof.
  intros Hj H0. unfold find_layer in Hj.
  destruct (find_layer_from_spec alt (map f (seq 0 N)) 0)
    as [[k [lo' [hi' [Hk [Hin [Hf _]]]]]] | [Hf _]];
    rewrite Hf in Hj.
  - rewrite Nat.add_0_l, Hk in Hj. injection Hj as <- <-. apply Hin.
  - apply nth_error_map_seq_inv in Hj as [_ E]. simpl in E.
    rewrite <- E in H0. exact H0.
Qed.

Lemma km_pos_scale (a : Q) : 0 <= a -> 0 <= a * km.
Proof.
  intros Ha. apply Qmult_le_0_compat; [exact Ha | vm_compute; discriminate].
Qed.

Lemma detector_size_facts (H : Q) (N : nat) :
  0 < H / Qnat N ->
  0 < detector_size H N /\ detector_size H N <= H / Qnat N / 10.
Proof.
  intros Ht. unfold detector_size. split; [| apply Q.le_min_r].
  destruct (Q.min_spec (10 * mm) (H / Qnat N / 10)) as [[_ E] | [_ E]];
    rewrite E; [reflexivity | qlra].
Qed.

Lemma layer_thickness_pos (H : Q) (N : nat) :
  0 < H -> (1 <= N)%nat -> 0 < H / Qnat N.
Proof.
  intros HH HN. unfold Qdiv. apply Qmult_lt_0_compat; [exact HH |].
  apply Qinv_lt_0_compat. unfold Qnat, Qlt. simpl. lia.
Qed.

Lemma place_flat_detector_inside {M : Type} (H : Q) (N : nat)
    (material : list M) (a : Q) (d : FlatDetector) :
  0 < H -> (1 <= N)%nat -> 0 <= a ->
  let w := construct_flat_layers H N in
  place_flat_detector H N material (altitude_limits w)
    (a * km + correction_factor w) = Some d ->
  0 < fd_half_z d /\
  - (H / Qnat N / 2) <= fd_position d - fd_half_z d /\
  fd_position d + fd_half_z d <= H / Qnat N / 2.
Proof.
  intros HH HN Ha w Hd. subst w.
  unfold construct_flat_layers in Hd. cbn [altitude_limits correction_factor] in Hd.
  unfold place_flat_detector in Hd.
  set (alt := a * km + - H / 2) in Hd.
  set (limits := map (flat_layer_limit H N (- H / 2)) (seq 0 N)) in Hd.
  destruct (nth_error material (find_layer alt limits)); [| discriminate].
  destruct (nth_error limits (find_layer alt limits)) as [[lo hi] |] eqn:Ej;
    [| discriminate].
  assert (Hlo : lo <= alt).
  { apply (find_layer_lower _ N alt lo hi Ej).
    rewrite flat_layer_limit_first. pose proof (km_pos_scale a Ha).
    unfold alt. qlra. }
  pose proof (layer_thickness_pos H N HH HN) as Ht.
  pose proof (detector_size_facts H N Ht) as [Hs0 Hs1].
  set (t := H / Qnat N) in *. set (s := detector_size H N) in *.
  clearbody t s.
  destruct (Qltb (t / 2) (alt - (lo + t / 2) + s / 2)) eqn:E1.
  - injection Hd as <-. cbn [fd_position fd_half_z]. qlra.
  - apply Qltb_false_iff in E1.
    destruct (Qltb (alt - (lo + t / 2) - s / 2) (- (t / 2))) eqn:E2.
    + apply Qltb_iff in E2. injection Hd as <-. cbn [fd_position fd_half_z].
      qlra.
    + apply Qltb_false_iff in E2. injection Hd as <-.
      cbn [fd_position fd_half_z]. qlra.
Qed.

Lemma place_spherical_detector_inside {M : Type} (earth_radius H : Q)
    (N : nat) (material : list M) (a : Q) (d : SphDetector) :
  0 < H -> (1 <= N)%nat -> 0 <= a ->
  let w := construct_spherical_layers earth_radius H N in
  place_spherical_detector H N material (altitude_limits w)
    (a * km + correction_factor w) = Some d ->
  exists lo hi,
    nth_error (altitude_limits w) (sd_layer d) = Some (lo, hi) /\
    lo <= sd_rmin d /\ sd_rmin d < sd_rmax d /\ sd_rmax d <= hi.
Proof.
  intros HH HN Ha w Hd. subst w.
  unfold construct_spherical_layers in *.
  cbn [altitude_limits correction_factor] in *.
  unfold place_spherical_detector in Hd.
  set (R := earth_radius * km) in *.
  set (alt := a * km + R) in Hd.
  set (limits := map (spherical_layer_limit H N R) (seq 0 N)) in *.
  destruct (nth_error limits (find_layer alt limits)) as [[lo hi] |] eqn:Ej;
    [| discriminate].
  destruct (nth_error material (find_layer alt limits)); [| discriminate].
  assert (Hlo : lo <= alt).
  { apply (find_layer_lower _ N alt lo hi Ej).
    unfold spherical_layer_limit, Qnat. cbn [fst Z.of_nat].
    assert (E : inject_Z 0 * H / inject_Z (Z.of_nat N) == 0)
      by (unfold Qdiv; ring).
    rewrite E. pose proof (km_pos_scale a Ha). unfold alt. qlra. }
  assert (Hthick : hi - lo == H / Qnat N).
  { pose proof Ej as Ej'. apply nth_error_map_seq_inv in Ej' as [_ E].
    pose proof (spherical_layer_limit_thickness H N R (0 + find_layer alt limits)
                  HN) as Ht.
    rewrite <- E in Ht. exact Ht. }
  pose proof (layer_thickness_pos H N HH HN) as Ht.
  pose proof (detector_size_facts H N Ht) as [Hs0 Hs1].
  set (t := H / Qnat N) in *. set (s := detector_size H N) in *.
  clearbody t s.
  exists lo, hi.
  destruct (Qle_bool (alt + s) hi) eqn:E1; injection Hd as <-;
    cbn [sd_layer sd_rmin sd_rmax]; (split; [exact Ej |]).
  - apply Qle_bool_iff in E1. qlra.
  - assert (E1' : ~ alt + s <= hi).
    { intros Hc. apply Qle_bool_iff in Hc. congruence. }
    apply Qnot_le_lt in E1'. qlra.
Qed.

(** X7: for a configuration that passes
    [SensitiveDetectorConfig.validate_data] (every altitude [>= 0]) and
    [atmosphere_height > 0], every box detector of the flat world has a
    positive half height and lies inside its layer:
    [-box_height <= position - half_z] and
    [position + half_z <= box_height]. Inside the atmosphere both clamps keep
    the detector in range although the lower one is shifted by its own half
    size. *)
Theorem flat_detectors_inside_layers {M : Type} (H : Q) (N : nat)
    (material : list M) (sd_altitude : list Q) (sd_particles : list string)
    (w : World) (ds : list FlatDetector) :
  0 < H -> (1 <= N)%nat ->
  validate_sensitive_detectors true sd_altitude sd_particles = true ->
  construct_flat_world H N material true sd_altitude = Some (w, ds) ->
  Forall (fun d =>
            0 < fd_half_z d /\
            - (H / Qnat N / 2) <= fd_position d - fd_half_z d /\
            fd_position d + fd_half_z d <= H / Qnat N / 2) ds.
Proof.
  intros HH HN Hv Hc. apply validate_sensitive_detectors_nonneg in Hv.
  unfold construct_flat_world in Hc.
  destruct (map_option _ _) as [ds' |] eqn:Hm; [| discriminate].
  injection Hc as _ <-.
  refine (map_option_Forall_in _
            (fun x => exists a, 0 <= a /\
               x = a * km + correction_factor (construct_flat_layers H N))
            _ _ _ _ _ Hm).
  - apply Forall_map. apply (Forall_impl _ (fun a Ha => ex_intro _ a (conj Ha eq_refl))) , Hv.
  - intros x d [a [Ha ->]] Hd. apply (place_flat_detector_inside H N material a d HH HN Ha Hd).
Qed.

Lemma flat_detectors_inside_layers_witness :
  let alts := [0; 2 # 1000000; 35; 70; 100] in
  (0 < 70 * km /\ (1 <= 10)%nat /\
   validate_sensitive_detectors true alts ["mu-"; "all"]%string = true) /\
  exists w ds,
    construct_flat_world (70 * km) 10 (repeat tt 10) true alts = Some (w, ds) /\
    Forall (fun d =>
              0 < fd_half_z d /\
              - (70 * km / Qnat 10 / 2) <= fd_position d - fd_half_z d /\
              fd_position d + fd_half_z d <= 70 * km / Qnat 10 / 2) ds.
Proof.
  intros alts.
  assert (Hv : validate_sensitive_detectors true alts ["mu-"; "all"]%string
               = true) by reflexivity.
  split; [split; [reflexivity | split; [lia | exact Hv]] |].
  destruct (construct_flat_world (70 * km) 10 (repeat tt 10) true alts)
    as [[w ds] |] eqn:Hc.
  - exists w, ds. split; [reflexivity |].
    apply (flat_detectors_inside_layers (70 * km) 10 (repeat tt 10) alts
             ["mu-"; "all"]%string w ds); [reflexivity | lia | exact Hv | exact Hc].
  - vm_compute in Hc. discriminate Hc.
Defined.

(** X8: for a validated configuration and [atmosphere_height > 0], every
    shell detector of the curved world has [rmin < rmax] and lies inside its
    layer: [altitude_limits[layer][0] <= rmin] and
    [rmax <= altitude_limits[layer][1]]. *)
Theorem spherical_detectors_inside_layers {M : Type} (earth_radius H : Q)
    (N : nat) (material : list M) (sd_altitude : list Q)
    (sd_particles : list string) (w : World) (ds : list SphDetector) :
  0 < H -> (1 <= N)%nat ->
  validate_sensitive_detectors true sd_altitude sd_particles = true ->
  construct_spherical_world earth_radius H N material true sd_altitude
    = Some (w, ds) ->
  Forall (fun d =>
            exists lo hi,
              nth_error (altitude_limits w) (sd_layer d) = Some (lo, hi) /\
              lo <= sd_rmin d /\ sd_rmin d < sd_rmax d /\ sd_rmax d <= hi) ds.
Proof.
  intros HH HN Hv Hc. apply validate_sensitive_detectors_nonneg in Hv.
  unfold construct_spherical_world in Hc.
  destruct (map_option _ _) as [ds' |] eqn:Hm; [| discriminate].
  injection Hc as <- <-.
  refine (map_option_Forall_in _
            (fun x => exists a, 0 <= a /\
               x = a * km + correction_factor
                     (construct_spherical_layers earth_radius H N))
            _ _ _ _ _ Hm).
  - apply Forall_map. apply (Forall_impl _ (fun a Ha => ex_intro _ a (conj Ha eq_refl))) , Hv.
  - intros x d [a [Ha ->]] Hd.
    apply (place_spherical_detector_inside earth_radius H N material a d HH HN Ha Hd).
Qed.

Lemma spherical_detectors_inside_layers_witness :
  let alts := [0; 2 # 1000000; 35; 70; 100] in
  (0 < 70 * km /\ (1 <= 10)%nat /\
   validate_sensitive_detectors true alts ["e-"]%string = true) /\
  exists w ds,
    construct_spherical_world 6371 (70 * km) 10 (repeat tt 10) true alts
      = Some (w, ds) /\
    Forall (fun d =>
              exists lo hi,
                nth_error (altitude_limits w) (sd_layer d) = Some (lo, hi) /\
                lo <= sd_rmin d /\ sd_rmin d < sd_rmax d /\ sd_rmax d <= hi) ds.
Proof.
  intros alts.
  assert (Hv : validate_sensitive_detectors true alts ["e-"]%string = true)
    by reflexivity.
  split; [split; [reflexivity | split; [lia | exact Hv]] |].
  destruct (construct_spherical_world 6371 (70 * km) 10 (repeat tt 10) true alts)
    as [[w ds] |] eqn:Hc.
  - exists w, ds. split; [reflexivity |].
    apply (spherical_detectors_inside_layers 6371 (70 * km) 10 (repeat tt 10)
             alts ["e-"]%string w ds); [reflexivity | lia | exact Hv | exact Hc].
  - vm_compute in Hc. discriminate Hc.
Defined.

(** ** Hits of the sensitive detector *)

Lemma existsb_eqb_in (x : string) (l : list string) :
  existsb (String.eqb x) l = true <-> In x l.
Proof.
  rewrite existsb_exists. split.
  - intros [y [Hy E]]. apply String.eqb_eq in E. subst y. exact Hy.
  - intros Hx. exists x. split; [exact Hx | apply String.eqb_refl].
Qed.

Lemma flat_found_layer (H : Q) (N : nat) (a : Q) :
  (1 <= N)%nat -> 0 <= a * km <= H ->
  let w := construct_flat_layers H N in
  let x := a * km + correction_factor w in
  exists lo hi, nth_error (altitude_limits w) (find_layer x (altitude_limits w))
                  = Some (lo, hi) /\ lo <= x <= hi.
Proof.
  intros HN [Ha0 HaH] w x. apply find_layer_contains. subst w x.
  unfold construct_flat_layers. cbn [altitude_limits correction_factor].
  apply map_seq_cover.
  - intros i. apply flat_layer_limit_next, HN.
  - exact HN.
  - rewrite flat_layer_limit_first. qlra.
  - rewrite Nat.add_0_l, flat_layer_limit_last by exact HN. qlra.
Qed.

(** A point of a flat detector placed for the real altitude [a] km lies,
    back in real altitude, within one detector size of [a * km] and inside
    the atmosphere. *)
Lemma place_flat_detector_real {M : Type} (H : Q) (N : nat)
    (material : list M) (a : Q) (d : FlatDetector) (t : Q) :
  0 < H -> (1 <= N)%nat -> 0 <= a -> a * km <= H ->
  let w := construct_flat_layers H N in
  place_flat_detector H N material (altitude_limits w)
    (a * km + correction_factor w) = Some d ->
  - fd_half_z d <= t <= fd_half_z d ->
  let v := flat_detector_point_z H N w d t - correction_factor w in
  a * km - 2 * fd_half_z d <= v <= a * km + 2 * fd_half_z d /\ 0 <= v <= H.
Proof.
  intros HH HN Ha HaH w Hd Ht v.
  pose proof (km_pos_scale a Ha) as Hak.
  destruct (flat_found_layer H N a HN (conj Hak HaH)) as [lo [hi [Ej Hin]]].
  unfold v, flat_detector_point_z. clear v.
  subst w. unfold construct_flat_layers in Hd, Ej, Hin |- *.
  cbn [altitude_limits correction_factor] in Hd, Ej, Hin |- *.
  unfold place_flat_detector in Hd.
  set (alt := a * km + - H / 2) in *.
  assert (Ealt : alt == a * km + - H / 2) by reflexivity.
  set (limits := map (flat_layer_limit H N (- H / 2)) (seq 0 N)) in *.
  set (j := find_layer alt limits) in *.
  destruct (nth_error material j); [| discriminate].
  rewrite Ej in Hd.
  pose proof Ej as Ej'. apply nth_error_map_seq_inv in Ej' as [Hj Elh].
  rewrite Nat.add_0_l in Elh. unfold flat_layer_limit in Elh.
  injection Elh as Elo Ehi.
  pose proof (layer_thickness_pos H N HH HN) as Htp.
  pose proof (detector_size_facts H N Htp) as [Hs0 Hs1].
  assert (HN0 : ~ Qnat N == 0) by (apply Qnat_nonzero; exact HN).
  assert (Hu0 : 0 <= Qnat j * H / Qnat N).
  { unfold Qdiv. apply Qmult_le_0_compat.
    - apply Qmult_le_0_compat; [apply Qnat_nonneg | lra].
    - apply Qinv_le_0_compat, Qnat_nonneg. }
  assert (Hu1 : Qnat j * H / Qnat N + H / Qnat N <= H).
  { assert (E1 : Qnat j * H / Qnat N + H / Qnat N == Qnat (S j) * (H / Qnat N))
      by (rewrite Qnat_succ; field; exact HN0).
    assert (E2 : Qnat N * (H / Qnat N) == H) by (field; exact HN0).
    rewrite E1. rewrite <- E2 at 2. apply Qmult_le_compat_r.
    - apply Qnat_le. lia.
    - apply Qlt_le_weak, Htp. }
  unfold flat_layer_center.
  set (u := Qnat j * H / Qnat N) in *.
  set (tt := H / Qnat N) in *. set (sz := detector_size H N) in *.
  assert (Elo' : lo == u + - H / 2) by (rewrite Elo; reflexivity).
  assert (Ehi' : hi == u + 2 * (tt / 2) + - H / 2) by (rewrite Ehi; reflexivity).
  assert (Eu : Qnat j * H / Qnat N == u) by reflexivity.
  clearbody u tt sz alt. clear Elo Ehi.
  destruct (Qltb (tt / 2) (alt - (lo + tt / 2) + sz / 2)) eqn:E1.
  - apply Qltb_iff in E1. injection Hd as <-.
    cbn [fd_position fd_half_z fd_layer] in *. rewrite Eu. qlra.
  - apply Qltb_false_iff in E1.
    destruct (Qltb (alt - (lo + tt / 2) - sz / 2) (- (tt / 2))) eqn:E2.
    + apply Qltb_iff in E2. injection Hd as <-.
      cbn [fd_position fd_half_z fd_layer] in *. rewrite Eu. qlra.
    + apply Qltb_false_iff in E2. injection Hd as <-.
      cbn [fd_position fd_half_z fd_layer] in *. rewrite Eu. qlra.
Qed.

(** X9: in a flat world built with sensitive detectors ([construct_flat_world]
    with validated altitudes at most [atmosphere_height]),
    [ConstructSDandField] creates one [SensDetector] per placed detector,
    each with the construction's [correction_factor]. For a hit anywhere in
    detector [k]'s box by an accepted particle (listed, or ["all"] listed),
    [ProcessHits] of [SensDetector k] adds a row whose altitude lies within
    one detector size of the requested real altitude [altitude[k] * km] and
    inside [[0, atmosphere_height]], and stops the track exactly when that
    altitude is at most 5000 mm; a hit by any other particle adds no row and
    does not stop the track. *)
Theorem ProcessHits_records_detector_altitude {M : Type} (H : Q) (N : nat)
    (material : list M) (sd_altitude : list Q) (sd_particles : list string)
    (process_num : nat) (w : World) (ds : list FlatDetector) :
  0 < H -> (1 <= N)%nat ->
  validate_sensitive_detectors true sd_altitude sd_particles = true ->
  Forall (fun a => a * km <= H) sd_altitude ->
  construct_flat_world H N material true sd_altitude = Some (w, ds) ->
  let sds := ConstructSDandField_detectors sd_particles process_num
               (correction_factor w) (length ds) in
  length sds = length sd_altitude /\
  forall k d a sd particle_type t,
    nth_error ds k = Some d -> nth_error sd_altitude k = Some a ->
    nth_error sds k = Some sd ->
    - fd_half_z d <= t <= fd_half_z d ->
    let z := flat_detector_point_z H N w d t in
    ((In particle_type sd_particles \/ In "all"%string sd_particles) ->
     exists v,
       ProcessHits sd particle_type z = (Some v, Qle_bool v ground_level) /\
       a * km - 2 * fd_half_z d <= v <= a * km + 2 * fd_half_z d /\
       0 <= v <= H) /\
    (~ In particle_type sd_particles -> ~ In "all"%string sd_particles ->
     ProcessHits sd particle_type z = (None, false)).
Proof.
  intros HH HN Hv HaH Hc sds.
  apply validate_sensitive_detectors_nonneg in Hv.
  unfold construct_flat_world in Hc.
  destruct (map_option _ _) as [ds' |] eqn:Hm; [| discriminate].
  injection Hc as <- <-.
  apply map_option_nth in Hm as [Hlen Hnth]. rewrite length_map in Hlen.
  split.
  { subst sds. unfold ConstructSDandField_detectors.
    rewrite length_map, length_seq. exact Hlen. }
  intros k d a sd p t Hd Ha Hsd Ht z.
  destruct (Hnth k (a * km + correction_factor (construct_flat_layers H N)))
    as [b [Hb Hbk]]; [rewrite nth_error_map, Ha; reflexivity |].
  rewrite Hbk in Hd. injection Hd as <-.
  subst sds. unfold ConstructSDandField_detectors in Hsd.
  apply nth_error_map_seq_inv in Hsd as [_ ->].
  apply nth_error_In in Ha.
  rewrite Forall_forall in Hv, HaH.
  pose proof (place_flat_detector_real H N material a b t HH HN (Hv a Ha)
                (HaH a Ha) Hb Ht) as Hreal.
  unfold ProcessHits. cbn [accepted_particles sens_correction_factor].
  split.
  - intros Hacc.
    assert (Hf : negb (existsb (String.eqb p) sd_particles) &&
                 negb (existsb (String.eqb "all"%string) sd_particles)
                 = false).
    { destruct Hacc as [Hin | Hin]; apply existsb_eqb_in in Hin; rewrite Hin;
        [reflexivity | apply andb_false_r]. }
    rewrite Hf.
    exists (z - correction_factor (construct_flat_layers H N)).
    split; [reflexivity | exact Hreal].
  - intros Hp Hall.
    destruct (existsb (String.eqb p) sd_particles) eqn:E1.
    { apply existsb_eqb_in in E1. contradiction. }
    destruct (existsb (String.eqb "all"%string) sd_particles) eqn:E2.
    { apply existsb_eqb_in in E2. contradiction. }
    reflexivity.
Qed.

Lemma ProcessHits_records_detector_altitude_witness :
  let sd_altitude := [0; 3; 35; 70] in
  let sd_particles := ["mu-"; "proton"]%string in
  exists w ds,
    construct_flat_world (70 * km) 10 (repeat tt 10) true sd_altitude
      = Some (w, ds) /\
    (0 < 70 * km /\ (1 <= 10)%nat /\
     validate_sensitive_detectors true sd_altitude sd_particles = true /\
     Forall (fun a => a * km <= 70 * km) sd_altitude) /\
    let sds := ConstructSDandField_detectors sd_particles 0
                 (correction_factor w) (length ds) in
    length sds = length sd_altitude /\
    forall k d a sd particle_type t,
      nth_error ds k = Some d -> nth_error sd_altitude k = Some a ->
      nth_error sds k = Some sd ->
      - fd_half_z d <= t <= fd_half_z d ->
      let z := flat_detector_point_z (70 * km) 10 w d t in
      ((In particle_type sd_particles \/ In "all"%string sd_particles) ->
       exists v,
         ProcessHits sd particle_type z = (Some v, Qle_bool v ground_level) /\
         a * km - 2 * fd_half_z d <= v <= a * km + 2 * fd_half_z d /\
         0 <= v <= 70 * km) /\
      (~ In particle_type sd_particles -> ~ In "all"%string sd_particles ->
       ProcessHits sd particle_type z = (None, false)).
Proof.
  intros sd_altitude sd_particles.
  destruct (construct_flat_world (70 * km) 10 (repeat tt 10) true sd_altitude)
    as [[w ds] |] eqn:Hc; [| vm_compute in Hc; discriminate].
  exists w, ds.
  assert (Hpre : 0 < 70 * km /\ (1 <= 10)%nat /\
     validate_sensitive_detectors true sd_altitude sd_particles = true /\
     Forall (fun a => a * km <= 70 * km) sd_altitude).
  { split; [reflexivity |]. split; [lia |]. split; [reflexivity |].
    repeat constructor; discriminate. }
  split; [reflexivity |]. split; [exact Hpre |].
  destruct Hpre as [H1 [H2 [H3 H4]]].
  exact (ProcessHits_records_detector_altitude (70 * km) 10 (repeat tt 10)
           sd_altitude sd_particles 0 w ds H1 H2 H3 H4 Hc).
Defined.

(** ** Decimal year *)

Section CalendarFacts.
Local Open Scope Z_scope.

Lemma div_step4 (y : Z) : y / 4 - (y - 1) / 4 = if y mod 4 =? 0 then 1 else 0.
Proof. destruct (Z.eqb_spec (y mod 4) 0); Z.div_mod_to_equations; lia. Qed.

Lemma div_step100 (y : Z) :
  y / 100 - (y - 1) / 100 = if y mod 100 =? 0 then 1 else 0.
Proof. destruct (Z.eqb_spec (y mod 100) 0); Z.div_mod_to_equations; lia. Qed.

Lemma div_step400 (y : Z) :
  y / 400 - (y - 1) / 400 = if y mod 400 =? 0 then 1 else 0.
Proof. destruct (Z.eqb_spec (y mod 400) 0); Z.div_mod_to_equations; lia. Qed.

Lemma mod_400_100 (y : Z) : y mod 400 = 0 -> y mod 100 = 0.
Proof. intros Hy. Z.div_mod_to_equations; lia. Qed.

Lemma mod_100_4 (y : Z) : y mod 100 = 0 -> y mod 4 = 0.
Proof. intros Hy. Z.div_mod_to_equations; lia. Qed.

(** the number of days of year [y] *)
Lemma days_before_year_succ (y : Z) :
  days_before_year (y + 1) - days_before_year y
    = 365 + (if is_leap y then 1 else 0).
Proof.
  unfold days_before_year, is_leap.
  replace (y + 1 - 1) with y by lia.
  pose proof (div_step4 y). pose proof (div_step100 y).
  pose proof (div_step400 y). pose proof (mod_400_100 y).
  pose proof (mod_100_4 y).
  destruct (Z.eqb_spec (y mod 4) 0), (Z.eqb_spec (y mod 100) 0),
    (Z.eqb_spec (y mod 400) 0); simpl in *; lia.
Qed.

Lemma days_in_year_bound (y m d : Z) :
  1 <= m <= 12 -> 1 <= d <= days_in_month y m ->
  0 <= days_before_month y m + d - 1 < 365 + (if is_leap y then 1 else 0).
Proof.
  intros Hm Hd.
  assert (Htable : 0 <= days_before_month y m /\
                   days_before_month y m + days_in_month y m
                     <= 365 + (if is_leap y then 1 else 0)).
  { assert (Hcases : m = 1 \/ m = 2 \/ m = 3 \/ m = 4 \/ m = 5 \/ m = 6 \/
                     m = 7 \/ m = 8 \/ m = 9 \/ m = 10 \/ m = 11 \/ m = 12)
      by lia.
    unfold days_before_month, days_in_month.
    repeat destruct Hcases as [-> | Hcases];
      try (subst m); destruct (is_leap y); simpl; lia. }
  lia.
Qed.

End CalendarFacts.

Lemma make_date_first (y : Z) :
  (1 <= y <= 9999)%Z ->
  make_date y 1 1 = Some {| date_year := y; date_month := 1; date_day := 1 |}.
Proof.
  intros Hy. unfold make_date.
  replace ((1 <=? y)%Z && (y <=? 9999)%Z) with true
    by (symmetry; apply andb_true_iff; split; apply Z.leb_le; lia).
  reflexivity.
Qed.

(** X10: for a valid date before year 9999, [transform_to_decimal_year]
    returns [year + elapsed / length], where [elapsed] is the number of days
    of the year before the date ([days_before_month + day - 1]) and [length]
    is 365, or 366 in a Gregorian leap year; the value lies in
    [[year, year + 1)] and January 1 gives exactly [year]. *)
Theorem decimal_year_in_year (date : Date) :
  date_valid date = true -> (date_year date < 9999)%Z ->
  exists q,
    transform_to_decimal_year date = Some q /\
    q == inject_Z (date_year date) +
         inject_Z (days_before_month (date_year date) (date_month date)
                   + date_day date - 1)
         / inject_Z (365 + (if is_leap (date_year date) then 1 else 0)) /\
    inject_Z (date_year date) <= q /\ q < inject_Z (date_year date + 1) /\
    (date_month date = 1%Z -> date_day date = 1%Z ->
     q == inject_Z (date_year date)).
Proof.
  intros Hv Hy. destruct date as [y m d]. cbn [date_year date_month date_day] in *.
  unfold date_valid, make_date in Hv. cbn [date_year date_month date_day] in Hv.
  destruct ((1 <=? y)%Z && (y <=? 9999)%Z && (1 <=? m)%Z && (m <=? 12)%Z &&
            (1 <=? d)%Z && (d <=? days_in_month y m)%Z) eqn:Ev; [| discriminate].
  repeat rewrite andb_true_iff in Ev. rewrite !Z.leb_le in Ev.
  destruct Ev as [[[[[H1 H2] H3] H4] H5] H6].
  unfold transform_to_decimal_year. cbn [date_year].
  rewrite make_date_first by lia. rewrite make_date_first by lia.
  unfold toordinal. cbn [date_year date_month date_day].
  set (L := (days_before_year (y + 1) + days_before_month (y + 1) 1 + 1 -
             (days_before_year y + days_before_month y 1 + 1))%Z).
  set (k := (days_before_year y + days_before_month y m + d -
             (days_before_year y + days_before_month y 1 + 1))%Z).
  assert (Ejan : forall z, days_before_month z 1 = 0%Z) by reflexivity.
  assert (EL : L = (365 + (if is_leap y then 1 else 0))%Z).
  { unfold L. pose proof (days_before_year_succ y). rewrite !Ejan. lia. }
  assert (Ek : k = (days_before_month y m + d - 1)%Z).
  { unfold k. rewrite Ejan. lia. }
  pose proof (days_in_year_bound y m d ltac:(lia) ltac:(lia)) as Hb.
  assert (HLpos : 0 < inject_Z L).
  { unfold Qlt. simpl. destruct (is_leap y); lia. }
  assert (Hk0 : 0 <= inject_Z k / inject_Z L).
  { apply Qle_shift_div_l; [exact HLpos |].
    rewrite Qmult_0_l. unfold Qle. simpl. lia. }
  assert (Hk1 : inject_Z k / inject_Z L < 1).
  { apply Qlt_shift_div_r; [exact HLpos |].
    rewrite Qmult_1_l, <- Zlt_Qlt. lia. }
  exists (inject_Z y + inject_Z k / inject_Z L).
  split; [reflexivity |]. split; [rewrite Ek, EL; reflexivity |].
  rewrite inject_Z_plus.
  split; [| split].
  - lra.
  - assert (E1 : inject_Z 1 == 1) by reflexivity. rewrite E1. lra.
  - intros -> ->. assert (E0 : k = 0%Z).
    { rewrite Ek, Ejan. lia. }
    rewrite E0. unfold Qdiv. rewrite Qmult_0_l. ring.
Qed.

Lemma decimal_year_in_year_witness :
  let date := {| date_year := 2024; date_month := 12; date_day := 31 |} in
  (date_valid date = true /\ (date_year date < 9999)%Z) /\
  exists q,
    transform_to_decimal_year date = Some q /\
    q == inject_Z (date_year date) +
         inject_Z (days_before_month (date_year date) (date_month date)
                   + date_day date - 1)
         / inject_Z (365 + (if is_leap (date_year date) then 1 else 0)) /\
    inject_Z (date_year date) <= q /\ q < inject_Z (date_year date + 1) /\
    (date_month date = 1%Z -> date_day date = 1%Z ->
     q == inject_Z (date_year date)).
Proof.
  intros date. split; [split; [reflexivity | simpl; lia] |].
  apply decimal_year_in_year; [reflexivity | simpl; lia].
Defined.

(** X11: [transform_to_decimal_year] fails (ValueError of [datetime.date])
    for every date of year 9999, the last year [datetime.date] allows: the
    start of the next year is not a valid date. *)
Theorem decimal_year_fails_in_9999 (date : Date) :
  date_year date = 9999%Z -> transform_to_decimal_year date = None.
Proof.
  intros Hy. unfold transform_to_decimal_year. rewrite Hy. reflexivity.
Qed.

Lemma decimal_year_fails_in_9999_witness :
  let date := {| date_year := 9999; date_month := 6; date_day := 15 |} in
  date_year date = 9999%Z /\ date_valid date = true /\
  transform_to_decimal_year date = None.
Proof.
  intros date. split; [reflexivity | split; [reflexivity |]].
  apply decimal_year_fails_in_9999. reflexivity.
Defined.

(** ** Timestamps of a run *)

Lemma sorted_map_seq (g : nat -> Q) (s n : nat) :
  (forall i, g i < g (S i)) -> Sorted Qlt (map g (seq s n)).
Proof.
  intros Hg. revert s. induction n as [| n IH]; intros s; simpl.
  - constructor.
  - constructor; [apply IH |]. destruct n as [| n]; simpl; constructor.
    apply Hg.
Qed.

(** X12: for [time_resolution > 0] the [timestamp] column of a run with
    [n] rows has [n] entries, starts at the simulation timestamp, is
    strictly increasing, and stays in
    [[sim_timestamp, sim_timestamp + time_resolution)]: [endpoint=False]
    keeps the end of the window out. *)
Theorem run_timestamps_in_window (sim_timestamp time_resolution : Q)
    (n : nat) :
  0 < time_resolution ->
  let ts := run_timestamps sim_timestamp time_resolution n in
  length ts = n /\ Sorted Qlt ts /\
  Forall (fun x => sim_timestamp <= x < sim_timestamp + time_resolution) ts /\
  ((1 <= n)%nat -> nth 0 ts 0 == sim_timestamp).
Proof.
  intros HT ts. destruct n as [| m].
  - subst ts. repeat split; try constructor. intros Hc. lia.
  - assert (Hn0 : ~ Qnat (S m) == 0) by (apply Qnat_nonzero; lia).
    assert (Hnpos : 0 < Qnat (S m)) by (unfold Qnat, Qlt; simpl; lia).
    set (step := (time_resolution - 0) / Qnat (S m)).
    assert (Hts : ts = map (fun i => sim_timestamp + (Qnat i * step + 0))
                           (seq 0 (S m))).
    { subst ts. unfold run_timestamps, linspace_open. rewrite map_map.
      reflexivity. }
    assert (Hstep : 0 < step).
    { unfold step, Qdiv. apply Qmult_lt_0_compat; [qlra |].
      apply Qinv_lt_0_compat, Hnpos. }
    assert (Htot : Qnat (S m) * step == time_resolution)
      by (unfold step; field; exact Hn0).
    clearbody step. rewrite Hts.
    split; [| split; [| split]].
    + rewrite length_map, length_seq. reflexivity.
    + apply sorted_map_seq. intros i. rewrite Qnat_succ. qlra.
    + apply Forall_forall. intros x Hx. apply in_map_iff in Hx as [i [<- Hi]].
      apply in_seq in Hi.
      assert (H0 : 0 <= Qnat i * step).
      { apply Qmult_le_0_compat; [apply Qnat_nonneg | qlra]. }
      assert (H1 : Qnat (S i) * step <= Qnat (S m) * step).
      { apply Qmult_le_compat_r; [apply Qnat_le; lia | qlra]. }
      rewrite Qnat_succ in H1.
      assert (E : (Qnat i + 1) * step == Qnat i * step + step) by ring.
      split; qlra.
    + intros _. simpl. unfold Qnat. simpl. ring.
Qed.

Lemma run_timestamps_in_window_witness :
  0 < 3600 /\
  let ts := run_timestamps 1700000000 3600 4 in
  length ts = 4%nat /\ Sorted Qlt ts /\
  Forall (fun x => 1700000000 <= x < 1700000000 + 3600) ts /\
  ((1 <= 4)%nat -> nth 0 ts 0 == 1700000000).
Proof.
  split; [reflexivity |].
  apply (run_timestamps_in_window 1700000000 3600 4). reflexivity.
Defined.

(** ** Magnetic field files *)

Lemma map_over_flat_map {A B C : Type} (f : B -> C) (g : A -> list B)
    (l : list A) :
  map f (flat_map g l) = flat_map (fun x => map f (g x)) l.
Proof.
  induction l as [| x l IH]; simpl; [reflexivity |].
  rewrite map_app, IH. reflexivity.
Qed.

Lemma length_flat_map_const {A B : Type} (g : A -> list B) (k : nat)
    (l : list A) :
  (forall x, length (g x) = k) -> length (flat_map g l) = (length l * k)%nat.
Proof.
  intros Hg. induction l as [| x l IH]; simpl; [reflexivity |].
  rewrite length_app, IH, Hg. reflexivity.
Qed.

Lemma sorted_app_dup (l1 l2 : list Q) (x : Q) :
  In x l1 -> In x l2 -> ~ Sorted Qlt (l1 ++ l2).
Proof.
  intros H1 H2 Hs. apply Sorted_StronglySorted in Hs; [| exact Qlt_trans].
  induction l1 as [| y l1 IH]; [destruct H1 |].
  simpl in Hs. apply StronglySorted_inv in Hs as [Hs Hall].
  destruct H1 as [-> | H1].
  - rewrite Forall_forall in Hall.
    apply (Qlt_irrefl x), Hall, in_or_app. right. exact H2.
  - apply IH; assumption.
Qed.

(** The altitude column of [create_mag_file] is the block of the
    altitudes, each repeated once per date, once per latitude and
    longitude. *)
Lemma create_mag_file_altitudes (gm : Q -> Q -> Q -> string -> Q * Q * Q)
    (lat lon alt : list Q) (date : list string) :
  map mf_altitude (create_mag_file gm lat lon alt date) =
  flat_map (fun _ => flat_map (fun _ =>
    flat_map (fun al => map (fun _ : string => al) date) alt) lon) lat.
Proof.
  unfold create_mag_file. rewrite map_over_flat_map.
  apply flat_map_ext. intros la. rewrite map_over_flat_map.
  apply flat_map_ext. intros lo. rewrite map_over_flat_map.
  apply flat_map_ext. intros al. rewrite map_map.
  apply map_ext. intros d. destruct (gm la lo al d) as [[x y] z].
  reflexivity.
Qed.

Lemma create_mag_file_dup (gm : Q -> Q -> Q -> string -> Q * Q * Q)
    (lat lon : list Q) (a0 : Q) (alt : list Q) (date : list string) :
  (2 <= length lat * length lon * length date)%nat ->
  exists l1 l2,
    map mf_altitude (create_mag_file gm lat lon (a0 :: alt) date) = l1 ++ l2 /\
    In a0 l1 /\ In a0 l2.
Proof.
  intros Hn. rewrite create_mag_file_altitudes.
  set (blk := flat_map (fun al => map (fun _ : string => al) date) (a0 :: alt)).
  destruct lat as [| la lat']; [simpl in Hn; lia |].
  destruct lon as [| lo lon']; [simpl in Hn; rewrite Nat.mul_0_r in Hn; lia |].
  destruct date as [| d0 [| d1 date'']].
  - rewrite Nat.mul_0_r in Hn. lia.
  - assert (Hin : In a0 blk) by (subst blk; left; reflexivity).
    destruct lon' as [| lo1 lon''].
    + destruct lat' as [| la1 lat''].
      * simpl in Hn. lia.
      * exists (blk ++ []),
          (flat_map (fun _ => flat_map (fun _ => blk) [lo]) (la1 :: lat'')).
        split; [reflexivity |]. split.
        -- rewrite app_nil_r. exact Hin.
        -- cbn [flat_map]. apply in_or_app. left. apply in_or_app. left.
           exact Hin.
    + exists blk,
        (flat_map (fun _ => blk) (lo1 :: lon'') ++
         flat_map (fun _ => flat_map (fun _ => blk) (lo :: lo1 :: lon'')) lat').
      split.
      * cbn [flat_map]. rewrite <- app_assoc. reflexivity.
      * split; [exact Hin |]. cbn [flat_map]. apply in_or_app. left.
        apply in_or_app. left. exact Hin.
  - exists [a0],
      (a0 :: map (fun _ : string => a0) date'' ++
       flat_map (fun al => map (fun _ : string => al) (d0 :: d1 :: date'')) alt ++
       flat_map (fun _ => blk) lon' ++
       flat_map (fun _ => flat_map (fun _ => blk) (lo :: lon')) lat').
    split; [| split; left; reflexivity].
    subst blk. cbn [flat_map map app]. rewrite <- !app_assoc. reflexivity.
Qed.

(** X13: [create_mag_file] writes one row per combination (the product of
    the four list lengths). Run for a single (latitude, longitude, date)
    combination, the altitude column that [get_magnetic_field] passes to
    [np.interp] (in length units) is the [alt] list itself; run for two or
    more combinations it repeats a value, so it is never strictly increasing
    as [np.interp] needs. *)
Theorem mag_file_altitudes_not_increasing
    (gm : Q -> Q -> Q -> string -> Q * Q * Q) (lat lon alt : list Q)
    (date : list string) :
  let column := map (fun r => row_altitude r * km)
                  (mag_rows_of_file (create_mag_file gm lat lon alt date)) in
  length (create_mag_file gm lat lon alt date)
    = (length lat * length lon * length alt * length date)%nat /\
  ((length lat * length lon * length date = 1)%nat ->
   column = map (fun a => a * km) alt) /\
  (alt <> [] -> (2 <= length lat * length lon * length date)%nat ->
   ~ Sorted Qlt column).
Proof.
  intros column.
  assert (Em : forall rows,
             map (fun r => row_altitude r * km) (mag_rows_of_file rows)
             = map (fun a => a * km) (map mf_altitude rows))
    by (intros rows; unfold mag_rows_of_file; rewrite !map_map; reflexivity).
  split; [| split].
  - unfold create_mag_file.
    rewrite (length_flat_map_const _ (length lon * length alt * length date)).
    + lia.
    + intros la.
      rewrite (length_flat_map_const _ (length alt * length date)); [lia |].
      intros lo. rewrite (length_flat_map_const _ (length date)); [reflexivity |].
      intros al. apply length_map.
  - intros H1. subst column. rewrite Em. f_equal.
    apply Nat.eq_mul_1 in H1 as [H1 Hd]. apply Nat.eq_mul_1 in H1 as [Hla Hlo].
    destruct lat as [| la [| ? ?]]; simpl in Hla; try lia.
    destruct lon as [| lo [| ? ?]]; simpl in Hlo; try lia.
    destruct date as [| d [| ? ?]]; simpl in Hd; try lia.
    unfold create_mag_file. simpl. rewrite !app_nil_r.
    induction alt as [| al alt IH]; [reflexivity |].
    simpl. destruct (gm la lo al d) as [[x y] z]. simpl. f_equal. exact IH.
  - intros Hne Hn. destruct alt as [| a0 alt']; [congruence |].
    destruct (create_mag_file_dup gm lat lon a0 alt' date Hn)
      as [l1 [l2 [E [H1 H2]]]].
    subst column. rewrite Em, E, map_app.
    apply (sorted_app_dup _ _ (a0 * km)); apply (in_map (fun a => a * km));
      assumption.
Qed.

Lemma mag_file_altitudes_not_increasing_witness :
  let gm := fun (la lo al : Q) (_ : string) => (la, lo, al) in
  (([0; 10; 70] : list Q) <> [] /\
   (2 <= length [40; 41] * length [2] * length ["2024-01-01"%string])%nat) /\
  let column := map (fun r => row_altitude r * km)
                  (mag_rows_of_file (create_mag_file gm [40; 41] [2]
                                       [0; 10; 70] ["2024-01-01"%string])) in
  length (create_mag_file gm [40; 41] [2] [0; 10; 70] ["2024-01-01"%string])
    = (length [40; 41] * length [2] * length [0; 10; 70] *
       length ["2024-01-01"%string])%nat /\
  ((length [40; 41] * length [2] * length ["2024-01-01"%string] = 1)%nat ->
   column = map (fun a => a * km) [0; 10; 70]) /\
  ((([0; 10; 70] : list Q) <> []) ->
   (2 <= length [40; 41] * length [2] * length ["2024-01-01"%string])%nat ->
   ~ Sorted Qlt column).
Proof.
  intros gm. split; [split; [discriminate | simpl; lia] |].
  apply mag_file_altitudes_not_increasing.
Defined.
